(** * TrueGen act parser: a shallow embedding of [app/parser.py],
    [app/models.py] and [app/preview.py], and the properties of the
    text-to-record pipeline.

    Python [str] values are lists of Unicode code points, [float] values
    are IEEE binary64 numbers ([spec_float] at precision 53), regular
    expressions are run by a backtracking matcher with the priorities of
    Python's [re] (greedy and lazy repetition, ordered alternation, named
    groups). *)

From Stdlib Require Import List Bool Arith ZArith NArith Lia String Ascii.
From Stdlib Require Import SpecFloat.
Import ListNotations.

Set Implicit Arguments.
Local Open Scope list_scope.

(** ** Python strings *)

Module PyStr.

Definition cp := N.
Definition str := list cp.

Definition bytes_of (s : string) : list N :=
  List.map N_of_ascii (list_ascii_of_string s).

(** UTF-8 decoding of the bytes of a source literal. *)
Fixpoint utf8 (bs : list N) : str :=
  match bs with
  | [] => []
  | b0 :: t0 =>
    if (b0 <? 128)%N then b0 :: utf8 t0 else
    match t0 with
    | [] => []
    | b1 :: t1 =>
      if (b0 <? 224)%N then
        N.lor (N.shiftl (N.land b0 31) 6) (N.land b1 63) :: utf8 t1
      else
      match t1 with
      | [] => []
      | b2 :: t2 =>
        if (b0 <? 240)%N then
          N.lor (N.shiftl (N.land b0 15) 12)
            (N.lor (N.shiftl (N.land b1 63) 6) (N.land b2 63)) :: utf8 t2
        else
        match t2 with
        | [] => []
        | b3 :: t3 =>
          N.lor (N.shiftl (N.land b0 7) 18)
            (N.lor (N.shiftl (N.land b1 63) 12)
               (N.lor (N.shiftl (N.land b2 63) 6) (N.land b3 63))) :: utf8 t3
        end
      end
    end
  end.

(** [u "text"] is the Python literal ['text']. *)
Definition u (s : string) : str := utf8 (bytes_of s).

Definition in_range (lo hi x : N) : bool := ((lo <=? x) && (x <=? hi))%N.

Definition str_eqb (a b : str) : bool :=
  if list_eq_dec N.eq_dec a b then true else false.

(** [str.isspace] on one code point; this is also the class [\s] of [re]. *)
Definition isspace (c : cp) : bool :=
  in_range 9 13 c || in_range 28 32 c || (c =? 133)%N || (c =? 160)%N
  || (c =? 5760)%N || in_range 8192 8202 c || (c =? 8232)%N
  || (c =? 8233)%N || (c =? 8239)%N || (c =? 8287)%N || (c =? 12288)%N.

Fixpoint in_ranges (rs : list (cp * cp)) (c : cp) : bool :=
  match rs with
  | [] => false
  | (lo, hi) :: rs' => in_range lo hi c || in_ranges rs' c
  end.

(** *** The character database

    The tables below are those of Unicode 14.0.0, the character database
    of CPython 3.11. *)

(** The decimal digits (general category Nd) stand in runs of ten, from
    the digit 0 to the digit 9; this is the zero of each run. *)
Definition decimal_zeros : list cp :=
  [ 48; 1632; 1776; 1984; 2406; 2534; 2662; 2790; 2918; 3046;
    3174; 3302; 3430; 3558; 3664; 3792; 3872; 4160; 4240; 6112;
    6160; 6470; 6608; 6784; 6800; 6992; 7088; 7232; 7248; 42528;
    43216; 43264; 43472; 43504; 43600; 44016; 65296; 66720; 68912; 69734;
    69872; 69942; 70096; 70384; 70736; 70864; 71248; 71360; 71472; 71904;
    72016; 72784; 73040; 73120; 92768; 92864; 93008; 120782; 120792; 120802;
    120812; 120822; 123200; 123632; 125264; 130032 ]%N.

(** [Py_UNICODE_TODECIMAL]: the value of a decimal digit. *)
Fixpoint decimal_of (zeros : list cp) (c : cp) : option N :=
  match zeros with
  | [] => None
  | z :: zs =>
    if in_range z (z + 9) c then Some (c - z)%N else decimal_of zs c
  end.

Definition todecimal (c : cp) : option N := decimal_of decimal_zeros c.

(** [str.isdecimal] on one code point; this is also the class [\d] of
    [re], and these are the digits that [int] and [float] read. *)
Definition isdecimal (c : cp) : bool :=
  match todecimal c with
  | Some _ => true
  | None => false
  end.

(** The simple lower-case mapping, in runs [(first, last, step, image)]:
    the code points [first], [first + step], ..., [last] map to [image],
    [image + step], ... *)
Definition tolower_runs : list (cp * cp * N * cp) :=
  [ (65, 90, 1, 97); (192, 214, 1, 224); (216, 222, 1, 248);
    (256, 302, 2, 257); (304, 304, 1, 105); (306, 310, 2, 307);
    (313, 327, 2, 314); (330, 374, 2, 331); (376, 376, 1, 255);
    (377, 381, 2, 378); (385, 385, 1, 595); (386, 388, 2, 387);
    (390, 390, 1, 596); (391, 391, 1, 392); (393, 394, 1, 598);
    (395, 395, 1, 396); (398, 398, 1, 477); (399, 399, 1, 601);
    (400, 400, 1, 603); (401, 401, 1, 402); (403, 403, 1, 608);
    (404, 404, 1, 611); (406, 406, 1, 617); (407, 407, 1, 616);
    (408, 408, 1, 409); (412, 412, 1, 623); (413, 413, 1, 626);
    (415, 415, 1, 629); (416, 420, 2, 417); (422, 422, 1, 640);
    (423, 423, 1, 424); (425, 425, 1, 643); (428, 428, 1, 429);
    (430, 430, 1, 648); (431, 431, 1, 432); (433, 434, 1, 650);
    (435, 437, 2, 436); (439, 439, 1, 658); (440, 440, 1, 441);
    (444, 444, 1, 445); (452, 452, 1, 454); (453, 453, 1, 454);
    (455, 455, 1, 457); (456, 456, 1, 457); (458, 458, 1, 460);
    (459, 475, 2, 460); (478, 494, 2, 479); (497, 497, 1, 499);
    (498, 500, 2, 499); (502, 502, 1, 405); (503, 503, 1, 447);
    (504, 542, 2, 505); (544, 544, 1, 414); (546, 562, 2, 547);
    (570, 570, 1, 11365); (571, 571, 1, 572); (573, 573, 1, 410);
    (574, 574, 1, 11366); (577, 577, 1, 578); (579, 579, 1, 384);
    (580, 580, 1, 649); (581, 581, 1, 652); (582, 590, 2, 583);
    (880, 882, 2, 881); (886, 886, 1, 887); (895, 895, 1, 1011);
    (902, 902, 1, 940); (904, 906, 1, 941); (908, 908, 1, 972);
    (910, 911, 1, 973); (913, 929, 1, 945); (931, 939, 1, 963);
    (975, 975, 1, 983); (984, 1006, 2, 985); (1012, 1012, 1, 952);
    (1015, 1015, 1, 1016); (1017, 1017, 1, 1010); (1018, 1018, 1, 1019);
    (1021, 1023, 1, 891); (1024, 1039, 1, 1104); (1040, 1071, 1, 1072);
    (1120, 1152, 2, 1121); (1162, 1214, 2, 1163); (1216, 1216, 1, 1231);
    (1217, 1229, 2, 1218); (1232, 1326, 2, 1233); (1329, 1366, 1, 1377);
    (4256, 4293, 1, 11520); (4295, 4295, 1, 11559); (4301, 4301, 1, 11565);
    (5024, 5103, 1, 43888); (5104, 5109, 1, 5112); (7312, 7354, 1, 4304);
    (7357, 7359, 1, 4349); (7680, 7828, 2, 7681); (7838, 7838, 1, 223);
    (7840, 7934, 2, 7841); (7944, 7951, 1, 7936); (7960, 7965, 1, 7952);
    (7976, 7983, 1, 7968); (7992, 7999, 1, 7984); (8008, 8013, 1, 8000);
    (8025, 8031, 2, 8017); (8040, 8047, 1, 8032); (8072, 8079, 1, 8064);
    (8088, 8095, 1, 8080); (8104, 8111, 1, 8096); (8120, 8121, 1, 8112);
    (8122, 8123, 1, 8048); (8124, 8124, 1, 8115); (8136, 8139, 1, 8050);
    (8140, 8140, 1, 8131); (8152, 8153, 1, 8144); (8154, 8155, 1, 8054);
    (8168, 8169, 1, 8160); (8170, 8171, 1, 8058); (8172, 8172, 1, 8165);
    (8184, 8185, 1, 8056); (8186, 8187, 1, 8060); (8188, 8188, 1, 8179);
    (8486, 8486, 1, 969); (8490, 8490, 1, 107); (8491, 8491, 1, 229);
    (8498, 8498, 1, 8526); (8544, 8559, 1, 8560); (8579, 8579, 1, 8580);
    (9398, 9423, 1, 9424); (11264, 11311, 1, 11312); (11360, 11360, 1, 11361);
    (11362, 11362, 1, 619); (11363, 11363, 1, 7549); (11364, 11364, 1, 637);
    (11367, 11371, 2, 11368); (11373, 11373, 1, 593); (11374, 11374, 1, 625);
    (11375, 11375, 1, 592); (11376, 11376, 1, 594); (11378, 11378, 1, 11379);
    (11381, 11381, 1, 11382); (11390, 11391, 1, 575); (11392, 11490, 2, 11393);
    (11499, 11501, 2, 11500); (11506, 11506, 1, 11507); (42560, 42604, 2, 42561);
    (42624, 42650, 2, 42625); (42786, 42798, 2, 42787); (42802, 42862, 2, 42803);
    (42873, 42875, 2, 42874); (42877, 42877, 1, 7545); (42878, 42886, 2, 42879);
    (42891, 42891, 1, 42892); (42893, 42893, 1, 613); (42896, 42898, 2, 42897);
    (42902, 42920, 2, 42903); (42922, 42922, 1, 614); (42923, 42923, 1, 604);
    (42924, 42924, 1, 609); (42925, 42925, 1, 620); (42926, 42926, 1, 618);
    (42928, 42928, 1, 670); (42929, 42929, 1, 647); (42930, 42930, 1, 669);
    (42931, 42931, 1, 43859); (42932, 42946, 2, 42933); (42948, 42948, 1, 42900);
    (42949, 42949, 1, 642); (42950, 42950, 1, 7566); (42951, 42953, 2, 42952);
    (42960, 42960, 1, 42961); (42966, 42968, 2, 42967); (42997, 42997, 1, 42998);
    (65313, 65338, 1, 65345); (66560, 66599, 1, 66600); (66736, 66771, 1, 66776);
    (66928, 66938, 1, 66967); (66940, 66954, 1, 66979); (66956, 66962, 1, 66995);
    (66964, 66965, 1, 67003); (68736, 68786, 1, 68800); (71840, 71871, 1, 71872);
    (93760, 93791, 1, 93792); (125184, 125217, 1, 125218) ]%N.

Fixpoint run_image (runs : list (cp * cp * N * cp)) (c : cp) : option cp :=
  match runs with
  | [] => None
  | (first, last, step, image) :: runs' =>
    if in_range first last c && ((c - first) mod step =? 0)%N
    then Some (image + (c - first))%N
    else run_image runs' c
  end.

(** [Py_UNICODE_TOLOWER], which is [_sre.unicode_tolower]. *)
Definition tolower (c : cp) : cp :=
  match run_image tolower_runs c with
  | Some x => x
  | None => c
  end.

(** The code points that differ from their lower case or from their
    upper case. *)
Definition cased_ranges : list (cp * cp) :=
  [ (65, 90); (97, 122); (181, 181); (192, 214); (216, 246);
    (248, 311); (313, 396); (398, 410); (412, 425); (428, 441);
    (444, 445); (447, 447); (452, 544); (546, 563); (570, 596);
    (598, 599); (601, 601); (603, 604); (608, 609); (611, 611);
    (613, 614); (616, 620); (623, 623); (625, 626); (629, 629);
    (637, 637); (640, 640); (642, 643); (647, 652); (658, 658);
    (669, 670); (837, 837); (880, 883); (886, 887); (891, 893);
    (895, 895); (902, 902); (904, 906); (908, 908); (910, 929);
    (931, 977); (981, 1013); (1015, 1019); (1021, 1153); (1162, 1327);
    (1329, 1366); (1377, 1415); (4256, 4293); (4295, 4295); (4301, 4301);
    (4304, 4346); (4349, 4351); (5024, 5109); (5112, 5117); (7296, 7304);
    (7312, 7354); (7357, 7359); (7545, 7545); (7549, 7549); (7566, 7566);
    (7680, 7835); (7838, 7838); (7840, 7957); (7960, 7965); (7968, 8005);
    (8008, 8013); (8016, 8023); (8025, 8025); (8027, 8027); (8029, 8029);
    (8031, 8061); (8064, 8116); (8118, 8124); (8126, 8126); (8130, 8132);
    (8134, 8140); (8144, 8147); (8150, 8155); (8160, 8172); (8178, 8180);
    (8182, 8188); (8486, 8486); (8490, 8491); (8498, 8498); (8526, 8526);
    (8544, 8575); (8579, 8580); (9398, 9449); (11264, 11376); (11378, 11379);
    (11381, 11382); (11390, 11491); (11499, 11502); (11506, 11507); (11520, 11557);
    (11559, 11559); (11565, 11565); (42560, 42605); (42624, 42651); (42786, 42799);
    (42802, 42863); (42873, 42887); (42891, 42893); (42896, 42900); (42902, 42926);
    (42928, 42954); (42960, 42961); (42966, 42969); (42997, 42998); (43859, 43859);
    (43888, 43967); (64256, 64262); (64275, 64279); (65313, 65338); (65345, 65370);
    (66560, 66639); (66736, 66771); (66776, 66811); (66928, 66938); (66940, 66954);
    (66956, 66962); (66964, 66965); (66967, 66977); (66979, 66993); (66995, 67001);
    (67003, 67004); (68736, 68786); (68800, 68850); (71840, 71903); (93760, 93823);
    (125184, 125251) ]%N.

(** [_sre.unicode_iscased] *)
Definition iscased (c : cp) : bool := in_ranges cased_ranges c.

(** The property Case_Ignorable, and the property Cased on the code
    points that are not Case_Ignorable (the rule of the final sigma asks
    for it on no other). *)
Definition Case_Ignorable : list (cp * cp) :=
  [ (39, 39); (46, 46); (58, 58); (94, 94); (96, 96);
    (168, 168); (173, 173); (175, 175); (180, 180); (183, 184);
    (688, 879); (884, 885); (890, 890); (900, 901); (903, 903);
    (1155, 1161); (1369, 1369); (1375, 1375); (1425, 1469); (1471, 1471);
    (1473, 1474); (1476, 1477); (1479, 1479); (1524, 1524); (1536, 1541);
    (1552, 1562); (1564, 1564); (1600, 1600); (1611, 1631); (1648, 1648);
    (1750, 1757); (1759, 1768); (1770, 1773); (1807, 1807); (1809, 1809);
    (1840, 1866); (1958, 1968); (2027, 2037); (2042, 2042); (2045, 2045);
    (2070, 2093); (2137, 2139); (2184, 2184); (2192, 2193); (2200, 2207);
    (2249, 2306); (2362, 2362); (2364, 2364); (2369, 2376); (2381, 2381);
    (2385, 2391); (2402, 2403); (2417, 2417); (2433, 2433); (2492, 2492);
    (2497, 2500); (2509, 2509); (2530, 2531); (2558, 2558); (2561, 2562);
    (2620, 2620); (2625, 2626); (2631, 2632); (2635, 2637); (2641, 2641);
    (2672, 2673); (2677, 2677); (2689, 2690); (2748, 2748); (2753, 2757);
    (2759, 2760); (2765, 2765); (2786, 2787); (2810, 2815); (2817, 2817);
    (2876, 2876); (2879, 2879); (2881, 2884); (2893, 2893); (2901, 2902);
    (2914, 2915); (2946, 2946); (3008, 3008); (3021, 3021); (3072, 3072);
    (3076, 3076); (3132, 3132); (3134, 3136); (3142, 3144); (3146, 3149);
    (3157, 3158); (3170, 3171); (3201, 3201); (3260, 3260); (3263, 3263);
    (3270, 3270); (3276, 3277); (3298, 3299); (3328, 3329); (3387, 3388);
    (3393, 3396); (3405, 3405); (3426, 3427); (3457, 3457); (3530, 3530);
    (3538, 3540); (3542, 3542); (3633, 3633); (3636, 3642); (3654, 3662);
    (3761, 3761); (3764, 3772); (3782, 3782); (3784, 3789); (3864, 3865);
    (3893, 3893); (3895, 3895); (3897, 3897); (3953, 3966); (3968, 3972);
    (3974, 3975); (3981, 3991); (3993, 4028); (4038, 4038); (4141, 4144);
    (4146, 4151); (4153, 4154); (4157, 4158); (4184, 4185); (4190, 4192);
    (4209, 4212); (4226, 4226); (4229, 4230); (4237, 4237); (4253, 4253);
    (4348, 4348); (4957, 4959); (5906, 5908); (5938, 5939); (5970, 5971);
    (6002, 6003); (6068, 6069); (6071, 6077); (6086, 6086); (6089, 6099);
    (6103, 6103); (6109, 6109); (6155, 6159); (6211, 6211); (6277, 6278);
    (6313, 6313); (6432, 6434); (6439, 6440); (6450, 6450); (6457, 6459);
    (6679, 6680); (6683, 6683); (6742, 6742); (6744, 6750); (6752, 6752);
    (6754, 6754); (6757, 6764); (6771, 6780); (6783, 6783); (6823, 6823);
    (6832, 6862); (6912, 6915); (6964, 6964); (6966, 6970); (6972, 6972);
    (6978, 6978); (7019, 7027); (7040, 7041); (7074, 7077); (7080, 7081);
    (7083, 7085); (7142, 7142); (7144, 7145); (7149, 7149); (7151, 7153);
    (7212, 7219); (7222, 7223); (7288, 7293); (7376, 7378); (7380, 7392);
    (7394, 7400); (7405, 7405); (7412, 7412); (7416, 7417); (7468, 7530);
    (7544, 7544); (7579, 7679); (8125, 8125); (8127, 8129); (8141, 8143);
    (8157, 8159); (8173, 8175); (8189, 8190); (8203, 8207); (8216, 8217);
    (8228, 8228); (8231, 8231); (8234, 8238); (8288, 8292); (8294, 8303);
    (8305, 8305); (8319, 8319); (8336, 8348); (8400, 8432); (11388, 11389);
    (11503, 11505); (11631, 11631); (11647, 11647); (11744, 11775); (11823, 11823);
    (12293, 12293); (12330, 12333); (12337, 12341); (12347, 12347); (12441, 12446);
    (12540, 12542); (40981, 40981); (42232, 42237); (42508, 42508); (42607, 42610);
    (42612, 42621); (42623, 42623); (42652, 42655); (42736, 42737); (42752, 42785);
    (42864, 42864); (42888, 42890); (42994, 42996); (43000, 43001); (43010, 43010);
    (43014, 43014); (43019, 43019); (43045, 43046); (43052, 43052); (43204, 43205);
    (43232, 43249); (43263, 43263); (43302, 43309); (43335, 43345); (43392, 43394);
    (43443, 43443); (43446, 43449); (43452, 43453); (43471, 43471); (43493, 43494);
    (43561, 43566); (43569, 43570); (43573, 43574); (43587, 43587); (43596, 43596);
    (43632, 43632); (43644, 43644); (43696, 43696); (43698, 43700); (43703, 43704);
    (43710, 43711); (43713, 43713); (43741, 43741); (43756, 43757); (43763, 43764);
    (43766, 43766); (43867, 43871); (43881, 43883); (44005, 44005); (44008, 44008);
    (44013, 44013); (64286, 64286); (64434, 64450); (65024, 65039); (65043, 65043);
    (65056, 65071); (65106, 65106); (65109, 65109); (65279, 65279); (65287, 65287);
    (65294, 65294); (65306, 65306); (65342, 65342); (65344, 65344); (65392, 65392);
    (65438, 65439); (65507, 65507); (65529, 65531); (66045, 66045); (66272, 66272);
    (66422, 66426); (67456, 67461); (67463, 67504); (67506, 67514); (68097, 68099);
    (68101, 68102); (68108, 68111); (68152, 68154); (68159, 68159); (68325, 68326);
    (68900, 68903); (69291, 69292); (69446, 69456); (69506, 69509); (69633, 69633);
    (69688, 69702); (69744, 69744); (69747, 69748); (69759, 69761); (69811, 69814);
    (69817, 69818); (69821, 69821); (69826, 69826); (69837, 69837); (69888, 69890);
    (69927, 69931); (69933, 69940); (70003, 70003); (70016, 70017); (70070, 70078);
    (70089, 70092); (70095, 70095); (70191, 70193); (70196, 70196); (70198, 70199);
    (70206, 70206); (70367, 70367); (70371, 70378); (70400, 70401); (70459, 70460);
    (70464, 70464); (70502, 70508); (70512, 70516); (70712, 70719); (70722, 70724);
    (70726, 70726); (70750, 70750); (70835, 70840); (70842, 70842); (70847, 70848);
    (70850, 70851); (71090, 71093); (71100, 71101); (71103, 71104); (71132, 71133);
    (71219, 71226); (71229, 71229); (71231, 71232); (71339, 71339); (71341, 71341);
    (71344, 71349); (71351, 71351); (71453, 71455); (71458, 71461); (71463, 71467);
    (71727, 71735); (71737, 71738); (71995, 71996); (71998, 71998); (72003, 72003);
    (72148, 72151); (72154, 72155); (72160, 72160); (72193, 72202); (72243, 72248);
    (72251, 72254); (72263, 72263); (72273, 72278); (72281, 72283); (72330, 72342);
    (72344, 72345); (72752, 72758); (72760, 72765); (72767, 72767); (72850, 72871);
    (72874, 72880); (72882, 72883); (72885, 72886); (73009, 73014); (73018, 73018);
    (73020, 73021); (73023, 73029); (73031, 73031); (73104, 73105); (73109, 73109);
    (73111, 73111); (73459, 73460); (78896, 78904); (92912, 92916); (92976, 92982);
    (92992, 92995); (94031, 94031); (94095, 94111); (94176, 94177); (94179, 94180);
    (110576, 110579); (110581, 110587); (110589, 110590); (113821, 113822); (113824, 113827);
    (118528, 118573); (118576, 118598); (119143, 119145); (119155, 119170); (119173, 119179);
    (119210, 119213); (119362, 119364); (121344, 121398); (121403, 121452); (121461, 121461);
    (121476, 121476); (121499, 121503); (121505, 121519); (122880, 122886); (122888, 122904);
    (122907, 122913); (122915, 122916); (122918, 122922); (123184, 123197); (123566, 123566);
    (123628, 123631); (125136, 125142); (125252, 125259); (127995, 127999); (917505, 917505);
    (917536, 917631); (917760, 917999) ]%N.

Definition Cased : list (cp * cp) :=
  [ (65, 90); (97, 122); (170, 170); (181, 181); (186, 186);
    (192, 214); (216, 246); (248, 442); (444, 447); (452, 659);
    (661, 687); (880, 883); (886, 887); (891, 893); (895, 895);
    (902, 902); (904, 906); (908, 908); (910, 929); (931, 1013);
    (1015, 1153); (1162, 1327); (1329, 1366); (1376, 1416); (4256, 4293);
    (4295, 4295); (4301, 4301); (4304, 4346); (4349, 4351); (5024, 5109);
    (5112, 5117); (7296, 7304); (7312, 7354); (7357, 7359); (7424, 7467);
    (7531, 7543); (7545, 7578); (7680, 7957); (7960, 7965); (7968, 8005);
    (8008, 8013); (8016, 8023); (8025, 8025); (8027, 8027); (8029, 8029);
    (8031, 8061); (8064, 8116); (8118, 8124); (8126, 8126); (8130, 8132);
    (8134, 8140); (8144, 8147); (8150, 8155); (8160, 8172); (8178, 8180);
    (8182, 8188); (8450, 8450); (8455, 8455); (8458, 8467); (8469, 8469);
    (8473, 8477); (8484, 8484); (8486, 8486); (8488, 8488); (8490, 8493);
    (8495, 8500); (8505, 8505); (8508, 8511); (8517, 8521); (8526, 8526);
    (8544, 8575); (8579, 8580); (9398, 9449); (11264, 11387); (11390, 11492);
    (11499, 11502); (11506, 11507); (11520, 11557); (11559, 11559); (11565, 11565);
    (42560, 42605); (42624, 42651); (42786, 42863); (42865, 42887); (42891, 42894);
    (42896, 42954); (42960, 42961); (42963, 42963); (42965, 42969); (42997, 42998);
    (43002, 43002); (43824, 43866); (43872, 43880); (43888, 43967); (64256, 64262);
    (64275, 64279); (65313, 65338); (65345, 65370); (66560, 66639); (66736, 66771);
    (66776, 66811); (66928, 66938); (66940, 66954); (66956, 66962); (66964, 66965);
    (66967, 66977); (66979, 66993); (66995, 67001); (67003, 67004); (68736, 68786);
    (68800, 68850); (71840, 71903); (93760, 93823); (119808, 119892); (119894, 119964);
    (119966, 119967); (119970, 119970); (119973, 119974); (119977, 119980); (119982, 119993);
    (119995, 119995); (119997, 120003); (120005, 120069); (120071, 120074); (120077, 120084);
    (120086, 120092); (120094, 120121); (120123, 120126); (120128, 120132); (120134, 120134);
    (120138, 120144); (120146, 120485); (120488, 120512); (120514, 120538); (120540, 120570);
    (120572, 120596); (120598, 120628); (120630, 120654); (120656, 120686); (120688, 120712);
    (120714, 120744); (120746, 120770); (120772, 120779); (122624, 122633); (122635, 122654);
    (125184, 125251); (127280, 127305); (127312, 127337); (127344, 127369) ]%N.

Fixpoint lstrip_by (p : cp -> bool) (s : str) : str :=
  match s with
  | [] => []
  | c :: t => if p c then lstrip_by p t else s
  end.

Definition rstrip_by (p : cp -> bool) (s : str) : str :=
  rev (lstrip_by p (rev s)).

Definition strip_by (p : cp -> bool) (s : str) : str :=
  rstrip_by p (lstrip_by p s).

(** The lower case of one character out of context: the simple mapping,
    but for U+0130, which lowers to two code points. *)
Definition lower_full (c : cp) : str :=
  if (c =? 304)%N then [105; 775]%N else [tolower c].

(** The capital sigma U+03A3 lowers to the final sigma U+03C2 when a
    cased character stands before it and none after it, the
    case-ignorable characters next to it skipped on either side, and to
    U+03C3 otherwise. [before] holds the characters that precede the
    sigma, the nearest first. *)
Definition final_sigma (before after : str) : bool :=
  match lstrip_by (in_ranges Case_Ignorable) before with
  | [] => false
  | c :: _ =>
    in_ranges Cased c
    && match lstrip_by (in_ranges Case_Ignorable) after with
       | [] => true
       | d :: _ => negb (in_ranges Cased d)
       end
  end.

Fixpoint lower_after (before s : str) : str :=
  match s with
  | [] => []
  | c :: t =>
    (if (c =? 931)%N
     then [if final_sigma before t then 962 else 963]%N
     else lower_full c)
    ++ lower_after (c :: before) t
  end.

(** [s.lower()] *)
Definition lower (s : str) : str := lower_after [] s.

(** [s.strip()] *)
Definition strip (s : str) : str := strip_by isspace s.

(** [s.strip(chars)], [s.rstrip(chars)] *)
Definition mem_cp (chars : str) (c : cp) : bool :=
  existsb (N.eqb c) chars.
Definition strip_chars (chars s : str) : str := strip_by (mem_cp chars) s.
Definition rstrip_chars (chars s : str) : str := rstrip_by (mem_cp chars) s.

(** [s.split(sep)] for a one-character separator. *)
Fixpoint split_on (sep : cp) (s : str) : list str :=
  match s with
  | [] => [[]]
  | c :: t =>
    if (c =? sep)%N then [] :: split_on sep t
    else match split_on sep t with
         | [] => [[c]]
         | w :: ws => (c :: w) :: ws
         end
  end.

(** [s.split()]: the maximal runs of non-whitespace characters. *)
Fixpoint split_ws_aux (cur : str) (s : str) : list str :=
  match s with
  | [] => match cur with [] => [] | _ => [rev cur] end
  | c :: t =>
    if isspace c then
      match cur with
      | [] => split_ws_aux [] t
      | _ => rev cur :: split_ws_aux [] t
      end
    else split_ws_aux (c :: cur) t
  end.

Definition split_ws (s : str) : list str := split_ws_aux [] s.

(** [sep.join(parts)] *)
Fixpoint join (sep : str) (parts : list str) : str :=
  match parts with
  | [] => []
  | [p] => p
  | p :: ps => p ++ sep ++ join sep ps
  end.

Fixpoint startswith (pre s : str) : bool :=
  match pre, s with
  | [], _ => true
  | _ :: _, [] => false
  | a :: pre', b :: s' => (a =? b)%N && startswith pre' s'
  end.

Definition endswith (suf s : str) : bool := startswith (rev suf) (rev s).

(** [sub in s] *)
Fixpoint contains (sub s : str) : bool :=
  startswith sub s ||
  match s with
  | [] => false
  | _ :: t => contains sub t
  end.

Definition nl : cp := 10%N.
Definition sp : cp := 32%N.

End PyStr.

Import PyStr.

(** ** Regular expressions with the matching priorities of Python's [re] *)

Module Re.

Inductive regex : Type :=
| Eps : regex
| Chr : (cp -> bool) -> regex          (* one character of a class *)
| Seq : regex -> regex -> regex
| Alt : regex -> regex -> regex        (* ordered: left first *)
| Star : bool -> regex -> regex        (* [true]: greedy, [false]: lazy *)
| Group : string -> regex -> regex     (* [(?P<name>...)] *)
| Eos : regex.                         (* [$] without MULTILINE *)

Definition caps := list (string * str).

Fixpoint group (c : caps) (g : string) : option str :=
  match c with
  | [] => None
  | (g', v) :: c' => if String.eqb g g' then Some v else group c' g
  end.

(** The loop of a repetition, over a matcher [body] for one round. A
    round counts only when it consumes input; the greedy loop tries one
    more round before it leaves, the lazy loop leaves first. The loop runs
    at most [fuel] rounds, and is started with the length of the input. *)
Fixpoint star_loop
         (body : str -> caps -> (str -> caps -> option caps) -> option caps)
         (greedy : bool) (k : str -> caps -> option caps)
         (fuel : nat) (s0 : str) (c0 : caps) {struct fuel} : option caps :=
  match fuel with
  | O => k s0 c0
  | S fuel' =>
    let more (_ : unit) :=
      body s0 c0 (fun s1 c1 =>
        if (List.length s1 <? List.length s0)%nat
        then star_loop body greedy k fuel' s1 c1 else None) in
    if greedy then
      match more tt with
      | Some res => Some res
      | None => k s0 c0
      end
    else
      match k s0 c0 with
      | Some res => Some res
      | None => more tt
      end
  end.

(** [exec r s c k] matches [r] at the front of [s] and hands the rest of
    the input and the groups to the continuation [k]; a [None] from [k]
    makes the matcher backtrack into the next alternative of [r]. *)
Fixpoint exec (r : regex) (s : str) (c : caps)
         (k : str -> caps -> option caps) {struct r} : option caps :=
  match r with
  | Eps => k s c
  | Chr p =>
    match s with
    | x :: s' => if p x then k s' c else None
    | [] => None
    end
  | Seq r1 r2 => exec r1 s c (fun s1 c1 => exec r2 s1 c1 k)
  | Alt r1 r2 =>
    match exec r1 s c k with
    | Some res => Some res
    | None => exec r2 s c k
    end
  | Star greedy r1 => star_loop (exec r1) greedy k (List.length s) s c
  | Group g r1 =>
    exec r1 s c (fun s1 c1 =>
      k s1 ((g, firstn (List.length s - List.length s1) s) :: c1))
  | Eos =>
    match s with
    | [] => k s c
    | [x] => if (x =? nl)%N then k s c else None
    | _ => None
    end
  end.

(** [pattern.match(s)]: anchored at the start, not at the end. The whole
    match is kept as group ["0"]. *)
Definition rmatch (r : regex) (s : str) : option caps :=
  exec r s [] (fun s1 c =>
    Some (("0"%string, firstn (List.length s - List.length s1) s) :: c)).

Definition whole (c : caps) : str :=
  match group c "0" with
  | Some m => m
  | None => []
  end.

(** [pattern.search(s)]: the leftmost position where a match starts. *)
Fixpoint rsearch (r : regex) (s : str) : option caps :=
  match rmatch r s with
  | Some c => Some c
  | None => match s with
            | [] => None
            | _ :: t => rsearch r t
            end
  end.

(** [re.sub(pattern, repl, s)] for a replacement text without escapes:
    the non-overlapping matches, leftmost first, are replaced. [skip]
    counts the characters of the current match still to be dropped. *)
Fixpoint sub_go (r : regex) (repl : str) (skip : nat) (s : str) : str :=
  match skip with
  | S n =>
    match s with
    | [] => []
    | _ :: t => sub_go r repl n t
    end
  | O =>
    match rmatch r s with
    | Some c =>
      match whole c with
      | [] => repl ++ match s with
                      | [] => []
                      | x :: t => x :: sub_go r repl 0 t
                      end
      | _ :: m' => repl ++ match s with
                           | [] => []
                           | _ :: t => sub_go r repl (List.length m') t
                           end
      end
    | None =>
      match s with
      | [] => []
      | x :: t => x :: sub_go r repl 0 t
      end
    end
  end.

Definition sub (r : regex) (repl s : str) : str := sub_go r repl 0 s.

(** [re.split(pattern, s, maxsplit=1)] for a one-character pattern. *)
Fixpoint split1 (p : cp -> bool) (s : str) : list str :=
  match s with
  | [] => [[]]
  | x :: t =>
    if p x then [[]; t]
    else match split1 p t with
         | [a; b] => [x :: a; b]
         | _ => [s]
         end
  end.

(** Derived forms. *)
Definition Plus (greedy : bool) (r : regex) : regex := Seq r (Star greedy r).
Definition Opt (r : regex) : regex := Alt r Eps.

(** [r{lo,lo+extra}], greedy. *)
Fixpoint Upto (extra : nat) (r : regex) : regex :=
  match extra with
  | O => Eps
  | S n => Opt (Seq r (Upto n r))
  end.
Fixpoint Rep (lo extra : nat) (r : regex) : regex :=
  match lo with
  | O => Upto extra r
  | S n => Seq r (Rep n extra r)
  end.

Fixpoint Seqs (rs : list regex) : regex :=
  match rs with
  | [] => Eps
  | [r] => r
  | r :: rs' => Seq r (Seqs rs')
  end.

(** Character classes. *)
Definition any : cp -> bool := fun c => negb (c =? nl)%N.   (* [.] *)
Definition one (x : cp) : cp -> bool := fun c => (c =? x)%N.
Definition oneof (xs : str) : cp -> bool := mem_cp xs.
Definition union (p q : cp -> bool) : cp -> bool := fun c => p c || q c.
Definition range (lo hi : cp) : cp -> bool := in_range lo hi.
Definition neg (p : cp -> bool) : cp -> bool := fun c => negb (p c).

(** The items of a character set [[...]]. *)
Inductive set_item : Type :=
| Literal (c : cp)
| Range (lo hi : cp).

Definition in_item (c : cp) (it : set_item) : bool :=
  match it with
  | Literal x => (c =? x)%N
  | Range lo hi => in_range lo hi c
  end.

Definition codes (it : set_item) : list cp :=
  match it with
  | Literal x => [x]
  | Range lo hi =>
    List.map (fun i => (lo + N.of_nat i)%N) (seq 0 (N.to_nat (hi + 1 - lo)))
  end.

(** A set compiled without [re.IGNORECASE]. *)
Definition charset (items : list set_item) : cp -> bool :=
  fun c => existsb (in_item c) items.

(** [re._casefix._EXTRA_CASES]: the characters with the same upper case
    as a lower-case character, beside itself. *)
Definition EXTRA_CASES : list (cp * list cp) :=
  [ (105, [305]); (115, [383]); (181, [956]); (305, [105]);
    (383, [115]); (837, [953; 8126]); (912, [8147]); (944, [8163]);
    (946, [976]); (949, [1013]); (952, [977]); (953, [837; 8126]);
    (954, [1008]); (956, [181]); (960, [982]); (961, [1009]);
    (962, [963]); (963, [962]); (966, [981]); (976, [946]);
    (977, [952]); (981, [966]); (982, [960]); (1008, [954]);
    (1009, [961]); (1013, [949]); (1074, [7296]); (1076, [7297]);
    (1086, [7298]); (1089, [7299]); (1090, [7300; 7301]); (1098, [7302]);
    (1123, [7303]); (7296, [1074]); (7297, [1076]); (7298, [1086]);
    (7299, [1089]); (7300, [1090; 7301]); (7301, [1090; 7300]); (7302, [1098]);
    (7303, [1123]); (7304, [42571]); (7777, [7835]); (7835, [7777]);
    (8126, [837; 953]); (8147, [912]); (8163, [944]); (42571, [7304]);
    (64261, [64262]); (64262, [64261]) ]%N.

Definition fixes (lo : cp) : list cp :=
  match find (fun kv => (fst kv =? lo)%N) EXTRA_CASES with
  | Some (_, ks) => ks
  | None => []
  end.

(** A set compiled under [re.IGNORECASE] ([_optimize_charset]): the map
    holds the lower case of every member and its extra cases; a
    character is in the set when its lower case is in the map. A set
    without a cased member is compiled as without the flag. *)
Definition charmap (items : list set_item) : list cp :=
  flat_map (fun i => tolower i :: fixes (tolower i)) (flat_map codes items).

Definition hascased (items : list set_item) : bool :=
  existsb iscased (flat_map codes items).

Definition charset_ignore (items : list set_item) : cp -> bool :=
  if hascased items
  then fun c => mem_cp (charmap items) (tolower c)
  else charset items.

(** A literal character compiled under [re.IGNORECASE]: a cased
    character matches the characters whose lower case is its own or one
    of its extra cases; another character matches itself. *)
Definition literal_ignore (av : cp) : cp -> bool :=
  if iscased av
  then fun c => mem_cp (tolower av :: fixes (tolower av)) (tolower c)
  else fun c => (c =? av)%N.

(** A literal word, and the same under [re.IGNORECASE]. *)
Definition Lit (w : str) : regex := Seqs (List.map (fun x => Chr (one x)) w).
Definition LitI (w : str) : regex :=
  Seqs (List.map (fun x => Chr (literal_ignore x)) w).

(** The group names of a pattern. *)
Fixpoint names (r : regex) : list string :=
  match r with
  | Eps | Chr _ | Eos => []
  | Seq r1 r2 | Alt r1 r2 => names r1 ++ names r2
  | Star _ r1 => names r1
  | Group g r1 => g :: names r1
  end.

(** [Matches r p rest c c']: the pattern [r] can consume exactly [p] when
    [rest] follows it, turning the groups [c] into [c']. The relation
    lists every way the matcher may take, without their order. *)
Inductive Matches : regex -> str -> str -> caps -> caps -> Prop :=
| M_Eps rest c : Matches Eps [] rest c c
| M_Chr (p : cp -> bool) x rest c :
    p x = true -> Matches (Chr p) [x] rest c c
| M_Seq r1 r2 p1 p2 rest c c1 c2 :
    Matches r1 p1 (p2 ++ rest) c c1 ->
    Matches r2 p2 rest c1 c2 ->
    Matches (Seq r1 r2) (p1 ++ p2) rest c c2
| M_AltL r1 r2 p rest c c1 :
    Matches r1 p rest c c1 -> Matches (Alt r1 r2) p rest c c1
| M_AltR r1 r2 p rest c c1 :
    Matches r2 p rest c c1 -> Matches (Alt r1 r2) p rest c c1
| M_StarDone g r1 rest c : Matches (Star g r1) [] rest c c
| M_StarMore g r1 p1 p2 rest c c1 c2 :
    Matches r1 p1 (p2 ++ rest) c c1 ->
    p1 <> [] ->
    Matches (Star g r1) p2 rest c1 c2 ->
    Matches (Star g r1) (p1 ++ p2) rest c c2
| M_Group g r1 p rest c c1 :
    Matches r1 p rest c c1 ->
    Matches (Group g r1) p rest c ((g, p) :: c1)
| M_EosEnd c : Matches Eos [] [] c c
| M_EosNl c : Matches Eos [] [nl] c c.

End Re.

(** ** Python floats: IEEE binary64 *)

Module PyFloat.

Definition prec : Z := 53.
Definition emax : Z := 1024.

Definition float := spec_float.

Definition fzero : float := S754_zero false.
Definition fmul : float -> float -> float := SFmul prec emax.
Definition fadd : float -> float -> float := SFadd prec emax.
Definition fsub : float -> float -> float := SFsub prec emax.
Definition fabs : float -> float := SFabs.
Definition flt : float -> float -> bool := SFltb.
Definition feq : float -> float -> bool := SFeqb.

(** The binary64 number nearest to [n / d] (ties to even), [0 <= n]. *)
Definition of_ratio (neg : bool) (n : Z) (d : positive) : float :=
  match n with
  | Z0 => S754_zero neg
  | Zpos _ =>
    let '(q, e, l) := SFdiv_core_binary prec emax n 0 (Zpos d) 0 in
    binary_round_aux prec emax neg q e l
  | Zneg _ => S754_nan
  end.

(** The value of a string of decimal digits, most significant first. *)
Definition digit_val (c : cp) : Z :=
  match todecimal c with
  | Some v => Z.of_N v
  | None => 0
  end.

Fixpoint digits_val (acc : Z) (ds : str) : Z :=
  match ds with
  | [] => acc
  | d :: ds' => digits_val (10 * acc + digit_val d) ds'
  end.

Fixpoint span_digits (s : str) : str * str :=
  match s with
  | [] => ([], [])
  | c :: t =>
    if isdecimal c then let '(ds, r) := span_digits t in (c :: ds, r)
    else ([], s)
  end.

(** [float(s)] on the strings the parser hands to it: surrounding
    whitespace is dropped, then decimal digits of any script with an
    optional fractional part ([12], [12.5], [12.], [.5]) are converted
    with correct rounding; any
    other text is a [ValueError], here [None]. The patterns of the parser
    admit only digits, separators and unit text in a numeric token, so the
    signs, exponents, underscores and special values that [float] accepts
    as well never reach it. *)
Definition float_of_str (s : str) : option float :=
  let '(ip, r) := span_digits (strip s) in
  match r with
  | [] =>
    match ip with
    | [] => None
    | _ => Some (of_ratio false (digits_val 0 ip) 1)
    end
  | c :: r' =>
    if (c =? 46)%N then
      let '(fp, r'') := span_digits r' in
      match r'', (ip ++ fp) with
      | [], _ :: _ =>
        Some (of_ratio false (digits_val 0 (ip ++ fp))
                (Z.to_pos (10 ^ Z.of_nat (List.length fp))))
      | _, _ => None
      end
    else None
  end.

(** Round half to even of [n / d], for [0 <= n]. *)
Definition div_half_even (n : Z) (d : Z) : Z :=
  let q := (n / d)%Z in
  let r := (n mod d)%Z in
  match (2 * r ?= d)%Z with
  | Lt => q
  | Gt => (q + 1)%Z
  | Eq => if Z.even q then q else (q + 1)%Z
  end.

(** The magnitude of a finite float in hundredths, its exact binary value
    rounded half to even: the digits that [round(x, 2)] and the format
    [.2f] both start from. *)
Definition hundredths (m : positive) (e : Z) : Z :=
  match e with
  | Zneg p => div_half_even (Zpos m * 100) (Z.pow 2 (Zpos p))
  | _ => (Zpos m * Z.pow 2 e * 100)%Z
  end.

(** [round(x, 2)] *)
Definition round2 (x : float) : float :=
  match x with
  | S754_finite s m e =>
    match e with
    | Zneg _ => of_ratio s (hundredths m e) 100
    | _ => x
    end
  | _ => x
  end.

End PyFloat.

Import PyFloat.

(** ** app/models.py *)

Module Models.

(** [datetime.date] *)
Record date := mkdate { year : Z; month : Z; day : Z }.

Definition is_leap (y : Z) : bool :=
  ((y mod 4 =? 0) && (negb (y mod 100 =? 0) || (y mod 400 =? 0)))%Z.

Definition days_in_month (y m : Z) : Z :=
  if (m =? 2)%Z then (if is_leap y then 29 else 28)
  else if ((m =? 4) || (m =? 6) || (m =? 9) || (m =? 11))%Z then 30
  else 31.

(** [date(y, m, d)] raises [ValueError] outside these bounds. *)
Definition valid_date (y m d : Z) : bool :=
  ((1 <=? y) && (y <=? 9999) && (1 <=? m) && (m <=? 12)
   && (1 <=? d) && (d <=? days_in_month y m))%Z.

Record ActItem := mkItem {
  name : str;
  quantity : float;
  unit : str;
  price : float
}.

(** The constructor [ActItem(name=..., quantity=..., unit=..., price=...)]:
    the fields [quantity] and [price] are declared [gt=0]; a value that
    is not greater than 0 (a NaN included) raises pydantic's
    [ValidationError] (a [ValueError]), here [None]; an infinite value
    passes the bound, as floats are not required to be finite. The field
    [name] carries no constraint. *)
Definition new_ActItem (n : str) (q : float) (un : str) (p : float)
  : option ActItem :=
  if flt fzero q && flt fzero p then Some (mkItem n q un p) else None.

(** [ActItem.__hash__] hashes the tuple
    [(name.lower(), unit.lower(), round(price, 2))]. The model keeps the
    tuple itself as the hash: two hashes are equal exactly when the tuples
    are equal (no collisions). *)
Definition hash_key (x : ActItem) : str * str * float :=
  (lower (name x), lower (unit x), round2 (price x)).

Definition key_eqb (k1 k2 : str * str * float) : bool :=
  let '(n1, u1, p1) := k1 in
  let '(n2, u2, p2) := k2 in
  str_eqb n1 n2 && str_eqb u1 u2 && feq p1 p2.

Definition hash_eqb (x y : ActItem) : bool := key_eqb (hash_key x) (hash_key y).

(** The float literal [0.01]. *)
Definition tolerance : float := of_ratio false 1 100.

(** [ActItem.__eq__] *)
Definition item_eq (self other : ActItem) : bool :=
  str_eqb (lower (name self)) (lower (name other))
  && str_eqb (lower (unit self)) (lower (unit other))
  && flt (fabs (fsub (price self) (price other))) tolerance.

(** [ActItem.total] *)
Definition item_total (x : ActItem) : float :=
  round2 (fmul (quantity x) (price x)).

Record ActData := mkAct {
  act_date : date;
  object_name : str;
  items : list ActItem
}.

(** [sum(...)] of floats, starting from the integer [0]. *)
Definition fsum (xs : list float) : float := fold_left fadd xs fzero.

(** [ActData.total] *)
Definition total (a : ActData) : float :=
  match items a with
  | [] => fzero
  | _ => round2 (fsum (List.map item_total (items a)))
  end.

End Models.

Import Models.

(** ** app/parser.py *)

Module Parser.

Import Re.

(** A Python dict keeps its keys in the order of their first insertion; a
    key written twice in a literal keeps its place and takes the later
    value. *)
Fixpoint dict_set (k v : str) (d : list (str * str)) : list (str * str) :=
  match d with
  | [] => [(k, v)]
  | (k', v') :: d' =>
    if str_eqb k k' then (k, v) :: d' else (k', v') :: dict_set k v d'
  end.

Definition dict_of (kvs : list (str * str)) : list (str * str) :=
  fold_left (fun d kv => dict_set (fst kv) (snd kv) d) kvs [].

Fixpoint dict_get (d : list (str * str)) (k : str) (default : str) : str :=
  match d with
  | [] => default
  | (k', v) :: d' => if str_eqb k k' then v else dict_get d' k default
  end.

Definition WORD_REPLACEMENTS : list (str * str) :=
  Eval vm_compute in dict_of
  [ (u "шлюх", u "Девушки");
    (u "проститутк", u "персонал");
    (u "кальян", u "оборудование");
    (u "по 10ке", u "по договорённости");
    (u "за ночь", u "за смену");
    (u "за сутки", u "за период");
    (u "три ночи", u "три смены");
    (u "ночей", u "смен");
    (u "ночь", u "смена");
    (u "девушк", u "ассистент");
    (u "девочк", u "ассистент");
    (u "мальчик", u "ассистент");
    (u "мальчиков", u "ассистентов");
    (u "девушек", u "ассистентов");
    (u "девочек", u "ассистентов");
    (u "по вызову", u "по заявке");
    (u "выезд", u "визит");
    (u "выездная", u "выездная бригада");
    (u "выездные", u "выездные бригады");
    (u "выездного", u "выездной бригады");
    (u "выездной", u "выездной бригады");
    (u "выездную", u "выездную бригаду");
    (u "выездные", u "выездные бригады");
    (u "выездными", u "выездными бригадами");
    (u "выездных", u "выездных бригад");
    (u "выездным", u "выездным бригадам");
    (u "выездными", u "выездными бригадами");
    (u "выездных", u "выездных бригадах") ].

(** [any(word in lower_text for word in WORD_REPLACEMENTS.keys())] *)
Definition has_inappropriate (lower_text : str) : bool :=
  existsb (fun kv => contains (fst kv) lower_text) WORD_REPLACEMENTS.

Definition annotation : str := Eval vm_compute in u " (названия скорректированы)".

Definition clean_text (text : str) : str :=
  match text with
  | [] => text
  | _ =>
    let lower_text := lower text in
    if has_inappropriate lower_text then
      let text1 :=
        fold_left
          (fun t kv =>
             if contains (fst kv) lower_text
             then sub (LitI (fst kv)) (snd kv) t
             else t)
          WORD_REPLACEMENTS text in
      let text2 :=
        if endswith (u ".") (strip text1) then text1 else text1 ++ u "." in
      text2 ++ annotation
    else text
  end.

(** *** The patterns of [ActParser] *)

Definition ws : regex := Chr isspace.
Definition digit : regex := Chr isdecimal.
Definition c_ (s : string) : cp :=
  match u s with
  | x :: _ => x
  | [] => 0%N
  end.

(** [#АКТ\s+(?P<date>\d{1,2}[./]\d{1,2}[./]\d{2,4})\s*\|\s*Объект:\s*(?P<object_name>.+)],
    IGNORECASE *)
Definition date_token : regex :=
  Seqs [ Rep 1 1 digit; Chr (oneof (u "./"));
         Rep 1 1 digit; Chr (oneof (u "./"));
         Rep 2 2 digit ].

Definition HEADER_PATTERN : regex :=
  Seqs [ LitI (u "#АКТ"); Plus true ws;
         Group "date" date_token;
         Star true ws; Chr (one (c_ "|")); Star true ws;
         LitI (u "Объект:"); Star true ws;
         Group "object_name" (Plus true (Chr any)) ].

(** The class [[а-яa-z.]] under IGNORECASE. *)
Definition unit_char : cp -> bool :=
  charset_ignore [Range (c_ "а") (c_ "я"); Range (c_ "a") (c_ "z"); Literal (c_ ".")].

(** [\d+(?:[.,]\d+)?] *)
Definition number : regex :=
  Seq (Plus true digit) (Opt (Seq (Chr (oneof (u ".,"))) (Plus true digit))).

(** The class [[₽р]] under IGNORECASE. *)
Definition rouble : cp -> bool :=
  charset_ignore [Literal (c_ "₽"); Literal (c_ "р")].

(** [ITEM_PATTERN], IGNORECASE | UNICODE. Each part of the source pattern
    is quoted above its translation; in the quotation a blank is put
    between a star and the bracket that follows it. *)
Definition ITEM_PATTERN : regex :=
  Seqs [
    (* (?P<name>.+?)\s+ *)
    Group "name" (Plus false (Chr any)); Plus true ws;
    (* (?P<quantity>\d+(?:[.,]\d+)?(?:\s*[xх]\s*\d+)?) *)
    Group "quantity"
      (Seq number
         (Opt (Seqs [Star true ws;
                     Chr (charset_ignore [Literal (c_ "x"); Literal (c_ "х")]);
                     Star true ws; Plus true digit])));
    (* (?:\s*(?P<unit>[а-яa-z.]+)(?:\s+[а-яa-z.]* )?)? *)
    Opt (Seqs [Star true ws; Group "unit" (Plus true (Chr unit_char));
               Opt (Seq (Plus true ws) (Star true (Chr unit_char)))]);
    (* \s*[×x*]\s* *)
    Star true ws;
    Chr (charset_ignore [Literal (c_ "×"); Literal (c_ "x"); Literal (c_ "*")]);
    Star true ws;
    (* (?P<price>\d+(?:[.,]\d+)?(?:\s*[₽р]?\s*[а-яa-z.]* )?) *)
    Group "price"
      (Seq number
         (Opt (Seqs [Star true ws; Opt (Chr rouble); Star true ws;
                     Star true (Chr unit_char)])));
    (* \s*(?:[₽р]|$) *)
    Star true ws; Alt (Chr rouble) Eos ].

(** [(?P<quantity>\d+)\s+(?P<name>[^\d]+)(?:по|:)\s*(?P<price>\d+)],
    IGNORECASE: the pattern of the first, second and fourth alternative
    formats. *)
Definition COUNT_FIRST_PATTERN : regex :=
  Seqs [ Group "quantity" (Plus true digit); Plus true ws;
         Group "name" (Plus true (Chr (neg isdecimal)));
         Alt (LitI (u "по")) (Chr (one (c_ ":")));
         Star true ws; Group "price" (Plus true digit) ].

(** [(?P<name>.+?)[,;]\s*(?P<quantity>\d+)\s+(?:модул|мод\.?|шт\.?)\s*(?:по|:)?\s*(?P<price>\d+)],
    IGNORECASE *)
Definition MODULE_PATTERN : regex :=
  Seqs [ Group "name" (Plus false (Chr any)); Chr (oneof (u ",;"));
         Star true ws; Group "quantity" (Plus true digit); Plus true ws;
         Alt (LitI (u "модул"))
           (Alt (Seq (LitI (u "мод")) (Opt (Chr (one (c_ ".")))))
                (Seq (LitI (u "шт")) (Opt (Chr (one (c_ "."))))));
         Star true ws;
         Opt (Alt (LitI (u "по")) (Chr (one (c_ ":"))));
         Star true ws; Group "price" (Plus true digit) ].

(** [(\d+)\s+ноч], no flags *)
Definition NIGHTS_PATTERN : regex :=
  Seqs [ Group "1" (Plus true digit); Plus true ws; Lit (u "ноч") ].

Definition UNIT_ALIASES : list (str * str) :=
  Eval vm_compute in dict_of
  [ (u "шт", u "шт.");
    (u "штук", u "шт.");
    (u "м", u "м");
    (u "метр", u "м");
    (u "кг", u "кг");
    (u "килограмм", u "кг");
    (u "компл", u "компл.");
    (u "комплект", u "компл.") ].

(** *** [ActParser._parse_item] *)

(** A [ValueError] or [AttributeError] raised inside [_parse_item] is
    caught there and the line yields [None]; the steps are chained in
    the option monad. *)
Definition bind {A B : Type} (x : option A) (f : A -> option B) : option B :=
  match x with
  | Some a => f a
  | None => None
  end.

Notation "x <- e ;; k" := (bind e (fun x => k))
  (at level 61, e at next level, right associativity).

(** [s.replace(',', '.')] *)
Definition comma_to_dot (s : str) : str :=
  List.map (fun c => if (c =? c_ ",")%N then c_ "." else c) s.

(** [' '.join(line.split())] *)
Definition normalize (line : str) : str := join (u " ") (split_ws line).

(** The body shared by the formats "3 кальяна по 1224" and
    "7 камер по 2000р". *)
Definition count_first_item (m : caps) : option ActItem :=
  n <- group m "name" ;;
  q <- group m "quantity" ;;
  p <- group m "price" ;;
  quantity <- float_of_str q ;;
  price <- float_of_str p ;;
  new_ActItem (strip_chars (u " ,") n) quantity (u "шт.") price.

(** The body of the format "4 ... по 10ке за ночь, три ночи в целом":
    the price is multiplied by the count that stands before "ноч". *)
Definition nights_item (line : str) (m : caps) : option ActItem :=
  n <- group m "name" ;;
  q <- group m "quantity" ;;
  p <- group m "price" ;;
  quantity <- float_of_str q ;;
  price <- float_of_str p ;;
  price' <-
    (if contains (u "ноч") (lower line) then
       match rsearch NIGHTS_PATTERN (lower line) with
       | Some nights_match =>
         g <- group nights_match "1" ;;
         nights <- float_of_str g ;;
         Some (fmul price nights)
       | None => Some price
       end
     else Some price) ;;
  new_ActItem (strip_chars (u " ,") n) quantity (u "шт.") price'.

(** The body of the format "стойка слабаточная, 18 модулей по 1000р". *)
Definition module_item (m : caps) : option ActItem :=
  n <- group m "name" ;;
  q <- group m "quantity" ;;
  p <- group m "price" ;;
  quantity <- float_of_str q ;;
  price <- float_of_str p ;;
  new_ActItem (strip n) quantity (u "мод.") price.

(** [re.sub(r'[^0-9.,]', '', s)] *)
Definition numeric_chars (s : str) : str :=
  sub (Chr (neg (union (range (c_ "0") (c_ "9")) (oneof (u ".,"))))) [] s.

(** The standard format. *)
Definition canonical_item (m : caps) : option ActItem :=
  n <- group m "name" ;;
  quantity_str <- group m "quantity" ;;
  let un := lower (match group m "unit" with
                   | Some (x :: g) => x :: g
                   | _ => u "шт."
                   end) in
  p <- group m "price" ;;
  let price_str := numeric_chars p in
  quantity <-
    (if contains (u "x") quantity_str || contains (u "х") quantity_str then
       match split1 (oneof (u "xх")) quantity_str with
       | [a; b] =>
         qty <- float_of_str (comma_to_dot (strip a)) ;;
         multiplier <- float_of_str (comma_to_dot (strip b)) ;;
         Some (fmul qty multiplier)
       | _ => float_of_str (comma_to_dot quantity_str)
       end
     else float_of_str (comma_to_dot quantity_str)) ;;
  price <- float_of_str (comma_to_dot price_str) ;;
  let un' := dict_get UNIT_ALIASES un un in
  new_ActItem (strip (strip n)) quantity un' price.

Definition _parse_item (line0 : str) : option ActItem :=
  let line := normalize line0 in
  match rmatch ITEM_PATTERN line with
  | None =>
    match rmatch COUNT_FIRST_PATTERN line with
    | Some alt_match => count_first_item alt_match
    | None =>
      match rmatch COUNT_FIRST_PATTERN line with
      | Some alt_match => nights_item line alt_match
      | None =>
        match rmatch MODULE_PATTERN line with
        | Some alt_match => module_item alt_match
        | None =>
          match rmatch COUNT_FIRST_PATTERN line with
          | Some alt_match => count_first_item alt_match
          | None => None
          end
        end
      end
    end
  | Some m => canonical_item m
  end.

(** *** [datetime.strptime(date_str, '%d.%m.%Y')]

    The standard library compiles the format into the pattern below,
    matches it at the start of the text, rejects a match that leaves text
    unconverted, and builds the date, which validates the calendar day. *)
Definition one_to_nine : regex := Chr (range (c_ "1") (c_ "9")).

(* 3[0-1]|[1-2]\d|0[1-9]|[1-9]| [1-9] *)
Definition DAY_FIELD : regex :=
  Alt (Seq (Chr (one (c_ "3"))) (Chr (range (c_ "0") (c_ "1"))))
  (Alt (Seq (Chr (range (c_ "1") (c_ "2"))) digit)
  (Alt (Seq (Chr (one (c_ "0"))) one_to_nine)
  (Alt one_to_nine
       (Seq (Chr (one (c_ " "))) one_to_nine)))).

(* 1[0-2]|0[1-9]|[1-9] *)
Definition MONTH_FIELD : regex :=
  Alt (Seq (Chr (one (c_ "1"))) (Chr (range (c_ "0") (c_ "2"))))
  (Alt (Seq (Chr (one (c_ "0"))) one_to_nine)
       one_to_nine).

(* \d\d\d\d *)
Definition YEAR_FIELD : regex := Seqs [digit; digit; digit; digit].

(* (?P<d>...)\.(?P<m>...)\.(?P<Y>...) *)
Definition STRPTIME_PATTERN : regex :=
  Seqs [ Group "d" DAY_FIELD; Chr (one (c_ "."));
         Group "m" MONTH_FIELD; Chr (one (c_ "."));
         Group "Y" YEAR_FIELD ].

(** [int(s)] for the digits of a group; the blank of a padded day is
    skipped as [int] does. *)
Definition int_of_str (s : str) : Z := digits_val 0 (strip s).

Definition strptime_dmY (date_str : str) : option date :=
  found <- rmatch STRPTIME_PATTERN date_str ;;
  if (List.length (whole found) =? List.length date_str)%nat then
    d <- group found "d" ;;
    m <- group found "m" ;;
    y <- group found "Y" ;;
    if valid_date (int_of_str y) (int_of_str m) (int_of_str d)
    then Some (mkdate (int_of_str y) (int_of_str m) (int_of_str d))
    else None
  else None.

(** *** [ActParser.parse_act] *)

(** The four [ValueError]s of [parse_act], by message. *)
Inductive ValueError : Type :=
| EmptyAct                  (* 'Пустой акт' *)
| BadHeader                 (* 'Неверный формат заголовка. ...' *)
| BadDate (date_str : str)  (* 'Неверный формат даты: {date_str}. ...' *)
| NoItems.                  (* 'Не найдено ни одной позиции в акте' *)

Inductive result (A : Type) : Type :=
| Ok (a : A)
| Raise (e : ValueError).
Arguments Ok {A} a.
Arguments Raise {A} e.

(** The failure kinds of the specification. *)
Inductive error_kind : Type := FormatError | EmptyActError.

Definition kind_of (e : ValueError) : error_kind :=
  match e with
  | EmptyAct | NoItems => EmptyActError
  | BadHeader | BadDate _ => FormatError
  end.

(** [[line.strip() for line in text.split('\n') if line.strip()]] *)
Definition nonblank_lines (text : str) : list str :=
  filter (fun l => match l with [] => false | _ => true end)
         (List.map strip (split_on nl text)).

Definition is_comment (line : str) : bool :=
  match strip line with
  | [] => true
  | _ => startswith (u "#") (strip line)
  end.

(** The loop over [lines[1:]]: blank lines and comments are skipped, every
    other line contributes its item, if it has one. *)
Fixpoint collect_items (lines : list str) : list ActItem :=
  match lines with
  | [] => []
  | line :: rest =>
    if is_comment line then collect_items rest
    else match _parse_item line with
         | Some item => item :: collect_items rest
         | None => collect_items rest
         end
  end.

(** [x in seen]: an element of the set with the hash of [x] that compares
    equal to [x]. *)
Definition in_seen (x : ActItem) (seen : list ActItem) : bool :=
  existsb (fun y => hash_eqb y x && item_eq y x) seen.

(** [[x for x in items if not (x in seen or seen.add(x))]] *)
Fixpoint dedupe_from (seen : list ActItem) (xs : list ActItem)
  : list ActItem :=
  match xs with
  | [] => []
  | x :: xs' =>
    if in_seen x seen then dedupe_from seen xs'
    else x :: dedupe_from (x :: seen) xs'
  end.

Definition dedupe (xs : list ActItem) : list ActItem := dedupe_from [] xs.

(** The header of the act: the date token and the cleaned object name. *)
Definition parse_header (line : str) : option (str * str) :=
  header_match <- rmatch HEADER_PATTERN line ;;
  date_str <- group header_match "date" ;;
  object <- group header_match "object_name" ;;
  Some (date_str, clean_text (strip object)).

Definition parse_act (text : str) : result ActData :=
  let cleaned_text := clean_text text in
  match nonblank_lines cleaned_text with
  | [] => Raise EmptyAct
  | first :: rest =>
    match parse_header first with
    | None => Raise BadHeader
    | Some (date_str, object) =>
      match strptime_dmY date_str with
      | None => Raise (BadDate date_str)
      | Some d =>
        match dedupe (collect_items rest) with
        | [] => Raise NoItems
        | its => Ok (mkAct d object its)
        end
      end
    end
  end.

End Parser.

Import Re Parser.

(** ** app/preview.py *)

Module Preview.

Fixpoint uint_str (d : Decimal.uint) : str :=
  match d with
  | Decimal.Nil => []
  | Decimal.D0 d' => 48%N :: uint_str d'
  | Decimal.D1 d' => 49%N :: uint_str d'
  | Decimal.D2 d' => 50%N :: uint_str d'
  | Decimal.D3 d' => 51%N :: uint_str d'
  | Decimal.D4 d' => 52%N :: uint_str d'
  | Decimal.D5 d' => 53%N :: uint_str d'
  | Decimal.D6 d' => 54%N :: uint_str d'
  | Decimal.D7 d' => 55%N :: uint_str d'
  | Decimal.D8 d' => 56%N :: uint_str d'
  | Decimal.D9 d' => 57%N :: uint_str d'
  end.

(** The decimal digits of a natural number. *)
Definition decimal (n : Z) : str := uint_str (N.to_uint (Z.to_N n)).

(** Two digits, padded with a zero. *)
Definition pad2 (n : Z) : str :=
  match decimal n with
  | [d] => [48%N; d]
  | ds => ds
  end.

(** A comma after every third digit, on the reversed digits. *)
Fixpoint commas_rev (r : str) : str :=
  match r with
  | a :: b :: c :: ((_ :: _) as t) => a :: b :: c :: c_ "," :: commas_rev t
  | _ => r
  end.

Definition grouped (n : Z) : str := rev (commas_rev (rev (decimal n))).

(** ["{0:,.2f}".format(value)] *)
Definition format_2f (value : float) : str :=
  let sign (s : bool) := if s then u "-" else [] in
  match value with
  | S754_nan => u "nan"
  | S754_infinity s => sign s ++ u "inf"
  | S754_zero s => sign s ++ u "0.00"
  | S754_finite s m e =>
    let n := hundredths m e in
    sign s ++ grouped (n / 100) ++ u "." ++ pad2 (n mod 100)
  end.

(** [_format_number] *)
Definition _format_number (value : float) : str :=
  let formatted :=
    List.map (fun c => if (c =? c_ ",")%N then c_ " " else c)
             (format_2f value) in
  if contains (u ".") formatted
  then rstrip_chars (u ".") (rstrip_chars (u "0") formatted)
  else formatted.

(** [d.strftime('%d.%m.%Y')]; the year is printed as the C library of the
    platform prints it, without padding. *)
Definition strftime_dmY (d : date) : str :=
  pad2 (day d) ++ u "." ++ pad2 (month d) ++ u "." ++ decimal (year d).

Definition item_line (item : ActItem) : str :=
  name item ++ u " " ++ _format_number (quantity item) ++ u " "
  ++ unit item ++ u " × " ++ _format_number (price item) ++ u "₽".

(** [format_act_as_text] *)
Definition format_act_as_text (act_data : ActData) : str :=
  join [nl]
    ((u "#АКТ " ++ strftime_dmY (act_date act_data) ++ u " | Объект: "
        ++ object_name act_data)
     :: List.map item_line (items act_data)).

End Preview.

Import Preview.

(** * The vocabulary of the statements *)

Unset Implicit Arguments.

(** ** Specification predicates *)

(** Numbers are written as binary64 numbers [S754_finite false m e], the
    number [m * 2 ^ e], with the mantissa of 53 bits that a float has: 1
    is [2 ^ 52] with the exponent [-52], 1500 is [1500 * 2 ^ 42] with
    [-42], 25.5 is [51 * 2 ^ 47] with [-48]. *)

Definition is_finite (x : float) : bool :=
  match x with
  | S754_finite _ _ _ | S754_zero _ => true
  | _ => false
  end.

Definition not_nan (x : float) : Prop := x <> S754_nan.

(** Two items are the same entry when they agree on the name and the
    unit, both without regard to letter case, and on the price. *)
Definition same_identity (a b : ActItem) : Prop :=
  lower (name a) = lower (name b)
  /\ lower (unit a) = lower (unit b)
  /\ price a = price b.

(** [l1] is [l2] with some elements left out and the others in their
    order. *)
Inductive subseq {A : Type} : list A -> list A -> Prop :=
| subseq_nil : subseq [] []
| subseq_skip x l1 l2 : subseq l1 l2 -> subseq l1 (x :: l2)
| subseq_keep x l1 l2 : subseq l1 l2 -> subseq (x :: l1) (x :: l2).

(** The digits [0] to [9] of ASCII. *)
Definition ascii_digit (c : cp) : bool := in_range 48 57 c.

(** The date format day.month.year over a class of digits: day, month
    and year in digits, one or two for the day and for the month, four
    for the year, with dots between them, and a day of the calendar. *)
Definition dmY_format (digit : cp -> bool) (date_str : str) (d : date) : Prop :=
  exists dd mm yyyy,
    date_str = dd ++ u "." ++ mm ++ u "." ++ yyyy
    /\ forallb digit dd = true
    /\ forallb digit mm = true
    /\ forallb digit yyyy = true
    /\ (1 <= List.length dd <= 2)%nat
    /\ (1 <= List.length mm <= 2)%nat
    /\ List.length yyyy = 4%nat
    /\ valid_date (digits_val 0 yyyy) (digits_val 0 mm) (digits_val 0 dd) = true
    /\ d = mkdate (digits_val 0 yyyy) (digits_val 0 mm) (digits_val 0 dd).

(** The date format of the specification; a digit is a decimal digit of
    any script. *)
Definition strict_dmY (date_str : str) (d : date) : Prop :=
  dmY_format isdecimal date_str d.

(** A text whose first character, if any, is not in the class [p], and a
    text with no character of [p] at either end: [strip] leaves it as it
    is. *)
Definition head_ok (p : cp -> bool) (s : str) : Prop :=
  match s with
  | [] => True
  | x :: _ => p x = false
  end.

Definition ends_clean (p : cp -> bool) (s : str) : Prop :=
  head_ok p s /\ head_ok p (rev s).

(** A word of [split]: not empty, without whitespace. *)
Definition word_ok (w : str) : Prop :=
  w <> [] /\ forall c, In c w -> isspace c = false.

(** ** Matcher properties *)

(** A matcher is sound for a pattern when each of its results is a match
    of the pattern that the continuation accepted. *)
Definition sound_for (r : regex)
  (body : str -> caps -> (str -> caps -> option caps) -> option caps) : Prop :=
  forall s c k res,
    body s c k = Some res ->
    exists p s1 c1,
      s = p ++ s1 /\ Matches r p s1 c c1 /\ k s1 c1 = Some res.

Definition accepts (k : str -> caps -> option caps) (s : str) (c : caps) : Prop :=
  k s c <> None.

(** With fuel for every round of a derivation the loop succeeds. *)
Definition star_complete (r : regex) (p rest : str) (c c1 : caps) : Prop :=
  forall g r1, r = Star g r1 ->
  forall k fuel, accepts k rest c1 -> (List.length p <= fuel)%nat ->
    star_loop (exec r1) g k fuel (p ++ rest) c <> None.

(** The texts the three fields of [STRPTIME_PATTERN] accept. *)
Definition day_tok (dd : str) : bool :=
  match dd with
  | [a] => range (c_ "1") (c_ "9") a
  | [a; b] =>
    (one (c_ "3") a && range (c_ "0") (c_ "1") b)
    || (range (c_ "1") (c_ "2") a && isdecimal b)
    || (one (c_ "0") a && range (c_ "1") (c_ "9") b)
    || (one (c_ " ") a && range (c_ "1") (c_ "9") b)
  | _ => false
  end.

Definition month_tok (mm : str) : bool :=
  match mm with
  | [a] => range (c_ "1") (c_ "9") a
  | [a; b] =>
    (one (c_ "1") a && range (c_ "0") (c_ "2") b)
    || (one (c_ "0") a && range (c_ "1") (c_ "9") b)
  | _ => false
  end.

Definition year_tok (yyyy : str) : bool :=
  match yyyy with
  | [a; b; c; d] => isdecimal a && isdecimal b && isdecimal c && isdecimal d
  | _ => false
  end.

(** What [strptime_dmY] returns for the texts of its three fields. *)
Definition date_of_fields (dd mm yyyy : str) : option date :=
  if valid_date (int_of_str yyyy) (int_of_str mm) (int_of_str dd)
  then Some (mkdate (int_of_str yyyy) (int_of_str mm) (int_of_str dd))
  else None.

(** ** Acts and lines of the examples *)

(** The three-line act of the specification's concrete scenario, and the
    record it denotes. The numbers are written as binary64 numbers
    [m * 2 ^ e]: 1 is 2^52 * 2^-52, 1500 is 1500 * 2^42 * 2^-42, 3 is
    3 * 2^51 * 2^-51 and 500 is 500 * 2^44 * 2^-44. *)
Definition scenario_text : str :=
  join [nl]
    [ u "#АКТ 12.05.2024 | Объект: Офис на Невском проспекте";
      u "Услуги по уборке 1 кв.м. × 1500";
      u "Мытье окон 3 шт. × 500" ].

Definition scenario_act : ActData :=
  mkAct (mkdate 2024 5 12) (u "Офис на Невском проспекте")
    [ mkItem (u "Услуги по уборке")
        (S754_finite false (2 ^ 52) (-52)) (u "кв.м.")
        (S754_finite false (1500 * 2 ^ 42) (-42));
      mkItem (u "Мытье окон")
        (S754_finite false (3 * 2 ^ 51) (-51)) (u "шт.")
        (S754_finite false (500 * 2 ^ 44) (-44)) ].

(** The canonical text of the scenario, as [format_act_as_text] writes
    it. *)
Definition scenario_canonical : str :=
  join [nl]
    [ u "#АКТ 12.05.2024 | Объект: Офис на Невском проспекте";
      u "Услуги по уборке 1 кв.м. × 1 500₽";
      u "Мытье окон 3 шт. × 500₽" ].

(** An act with one item, priced 1500. *)
Definition single_item_text : str :=
  join [nl]
    [ u "#АКТ 12.05.2024 | Объект: Офис";
      u "Услуги по уборке 1 кв.м. × 1500" ].

Definition single_item_act : ActData :=
  mkAct (mkdate 2024 5 12) (u "Офис")
    [ mkItem (u "Услуги по уборке") (S754_finite false (2 ^ 52) (-52)) (u "кв.м.")
          (S754_finite false (1500 * 2 ^ 42) (-42)) ].

(** A quantity-first line with a count of nights. *)
Definition nights_line : str := u "4 камеры по 1000, 3 ночи".

Definition nights_text : str :=
  join [nl] [ u "#АКТ 12.05.2024 | Объект: Отель"; nights_line ].

(** Two lines whose prices are 0.002 apart and round to different
    hundredths. *)
Definition tolerance_text : str :=
  join [nl]
    [ u "#АКТ 12.05.2024 | Объект: Склад";
      u "Товар 1 шт × 1.004";
      u "Товар 2 шт × 1.006" ].

Definition item_1004 : ActItem :=
  mkItem (u "Товар") (S754_finite false (2 ^ 52) (-52)) (u "шт.")
      (S754_finite false 4521614025879978 (-52)).

Definition item_1006 : ActItem :=
  mkItem (u "Товар") (S754_finite false (2 * 2 ^ 51) (-51)) (u "шт.")
      (S754_finite false 4530621225134719 (-52)).

(** An act with the same line twice, the second with another quantity. *)
Definition repeated_text : str :=
  join [nl]
    [ u "#АКТ 12.05.2024 | Объект: Склад";
      u "Кабель 10 м × 25.5";
      u "Розетка 4 шт × 150";
      u "кабель 3 М × 25,50₽" ].

Definition cable_first : ActItem :=
  mkItem (u "Кабель") (S754_finite false (10 * 2 ^ 49) (-49)) (u "м")
      (S754_finite false (51 * 2 ^ 47) (-48)).

Definition socket : ActItem :=
  mkItem (u "Розетка") (S754_finite false (4 * 2 ^ 50) (-50)) (u "шт.")
      (S754_finite false (150 * 2 ^ 45) (-45)).

Definition cable_again : ActItem :=
  mkItem (u "кабель") (S754_finite false (3 * 2 ^ 51) (-51)) (u "м")
      (S754_finite false (51 * 2 ^ 47) (-48)).

(** The price of 1 followed by 309 zeros is beyond the largest float. *)
Definition huge_price : str := u "1" ++ repeat 48%N 309.

Definition overflow_text : str :=
  join [nl]
    [ u "#АКТ 12.05.2024 | Объект: Склад";
      u "Товар 1 шт × " ++ huge_price;
      u "Товар 2 шт × " ++ huge_price ].

(** An act with a header, a comment and a line without a match. *)
Definition header_only_text : str :=
  join [nl]
    [ u "#АКТ 12.05.2024 | Объект: Склад";
      u "# позиции будут позже";
      u "просто текст без цифр" ].

(** Acts whose header the template admits and [strptime] refuses. *)
Definition slash_date_text : str :=
  join [nl] [ u "#АКТ 12/05/2024 | Объект: Склад"; u "Товар 1 шт × 100" ].

Definition short_year_text : str :=
  join [nl] [ u "#АКТ 12.05.24 | Объект: Склад"; u "Товар 1 шт × 100" ].

Definition three_digit_year_text : str :=
  join [nl] [ u "#АКТ 12.05.202 | Объект: Склад"; u "Товар 1 шт × 100" ].

Definition no_such_day_text : str :=
  join [nl] [ u "#АКТ 31.02.2024 | Объект: Склад"; u "Товар 1 шт × 100" ].

(** ** Tactics *)

(** Closed facts are settled by evaluation; a conjunction is split first,
    an equation never is. *)
Ltac conjuncts := repeat apply conj.
Ltac by_eval := vm_compute; reflexivity.

(** * The matcher returns matches of its pattern *)

Section MatcherSoundness.

Lemma firstn_consumed (p s1 : str) :
  firstn (List.length (p ++ s1) - List.length s1) (p ++ s1) = p.
Proof.
  rewrite length_app, Nat.add_sub.
  rewrite firstn_app, Nat.sub_diag, firstn_all. simpl. apply app_nil_r.
Qed.

Lemma shorter_nonempty (p s1 : str) :
  (List.length s1 <? List.length (p ++ s1))%nat = true -> p <> [].
Proof.
  intros H ->. simpl in H. rewrite Nat.ltb_irrefl in H. discriminate.
Qed.

Lemma star_loop_sound (r1 : regex) body (g : bool) k res :
  sound_for r1 body ->
  forall fuel s c,
    star_loop body g k fuel s c = Some res ->
    exists p s1 c1,
      s = p ++ s1 /\ Matches (Star g r1) p s1 c c1 /\ k s1 c1 = Some res.
Proof.
  intros Hbody fuel.
  induction fuel as [|fuel IHf]; intros s c H; simpl in H.
  - exists [], s, c. repeat split; [constructor | exact H].
  - assert (Hmore :
      body s c (fun s1 c1 =>
        if (List.length s1 <? List.length s)%nat
        then star_loop body g k fuel s1 c1 else None) = Some res ->
      exists p s1 c1,
        s = p ++ s1 /\ Matches (Star g r1) p s1 c c1 /\ k s1 c1 = Some res).
    { intro E. apply Hbody in E.
      destruct E as (p1 & s1 & c1 & -> & M1 & E).
      destruct (List.length s1 <? List.length (p1 ++ s1))%nat eqn:Hlt;
        [|discriminate].
      apply shorter_nonempty in Hlt.
      apply IHf in E. destruct E as (p2 & s2 & c2 & -> & M2 & E).
      exists (p1 ++ p2), s2, c2. rewrite <- app_assoc.
      repeat split; [|exact E].
      eapply M_StarMore; [exact M1 | exact Hlt | exact M2]. }
    destruct g.
    + match type of H with
      | match ?e with _ => _ end = _ => destruct e as [res'|] eqn:E
      end.
      * injection H as H. subst res'. apply Hmore. reflexivity.
      * exists [], s, c. repeat split; [constructor | exact H].
    + destruct (k s c) as [res'|] eqn:E.
      * injection H as H. subst res'.
        exists [], s, c. repeat split; [constructor | exact E].
      * apply Hmore. exact H.
Qed.

(** Whatever the matcher returns came from a match of the pattern that
    the continuation accepted. *)
Lemma exec_sound (r : regex) : sound_for r (exec r).
Proof.
  induction r as [ | cls | r1 IH1 r2 IH2 | r1 IH1 r2 IH2 | g r1 IH1
                   | g r1 IH1 | ]; intros s c k res H; simpl in H.
  - exists [], s, c. repeat split; [constructor | exact H].
  - destruct s as [|x s']; [discriminate|].
    destruct (cls x) eqn:Hx; [|discriminate].
    exists [x], s', c. repeat split; [constructor; exact Hx | exact H].
  - apply IH1 in H. destruct H as (p1 & s1 & c1 & -> & M1 & H).
    apply IH2 in H. destruct H as (p2 & s2 & c2 & -> & M2 & H).
    exists (p1 ++ p2), s2, c2. rewrite <- app_assoc.
    repeat split; [econstructor; eassumption | exact H].
  - destruct (exec r1 s c k) as [res'|] eqn:E.
    + injection H as H. subst res'. apply IH1 in E.
      destruct E as (p & s1 & c1 & -> & M1 & E).
      exists p, s1, c1. repeat split; [apply M_AltL; exact M1 | exact E].
    + apply IH2 in H. destruct H as (p & s1 & c1 & -> & M2 & H).
      exists p, s1, c1. repeat split; [apply M_AltR; exact M2 | exact H].
  - eapply star_loop_sound; eassumption.
  - apply IH1 in H. destruct H as (p & s1 & c1 & -> & M1 & H).
    rewrite firstn_consumed in H.
    exists p, s1, ((g, p) :: c1).
    repeat split; [constructor; exact M1 | exact H].
  - destruct s as [|x [|y s']].
    + exists [], [], c. repeat split; [constructor | exact H].
    + destruct (x =? nl)%N eqn:Hx; [|discriminate].
      apply N.eqb_eq in Hx. subst x.
      exists [], [nl], c. repeat split; [constructor | exact H].
    + discriminate.
Qed.

(** A match of [rmatch]: the consumed prefix is group ["0"], the other
    groups are those of a match of the pattern. *)
Lemma rmatch_sound (r : regex) (s : str) (m : caps) :
  rmatch r s = Some m ->
  exists p s1 c1,
    s = p ++ s1 /\ Matches r p s1 [] c1 /\ m = ("0"%string, p) :: c1.
Proof.
  unfold rmatch. intro H. apply exec_sound in H.
  destruct H as (p & s1 & c1 & -> & M1 & H).
  rewrite firstn_consumed in H. injection H as <-.
  exists p, s1, c1. auto.
Qed.

(** A match leaves the groups it does not name as they were. *)
Lemma group_frame (r : regex) p rest c c1 (g : string) :
  Matches r p rest c c1 -> ~ In g (names r) -> group c1 g = group c g.
Proof.
  induction 1 as [ | | r1 r2 p1 p2 rest c c1 c2 _ IH1 _ IH2
                   | r1 r2 p rest c c1 _ IH | r1 r2 p rest c c1 _ IH
                   | | g' r1 p1 p2 rest c c1 c2 _ IH1 _ _ IH2
                   | g' r1 p rest c c1 _ IH | | ];
    simpl; intro Hg; try reflexivity.
  - rewrite IH2, IH1; [reflexivity | |]; intro; apply Hg, in_or_app; auto.
  - apply IH. intro; apply Hg, in_or_app; auto.
  - apply IH. intro; apply Hg, in_or_app; auto.
  - rewrite IH2, IH1; auto.
  - destruct (String.eqb g g') eqn:E.
    + apply String.eqb_eq in E. subst. exfalso. apply Hg. left. reflexivity.
    + apply IH. intro. apply Hg. right. assumption.
Qed.

End MatcherSoundness.

(** * The matcher finds a match when there is one *)

Section MatcherCompleteness.

Lemma some_not_none {A : Type} (o : option A) (x : A) : o = Some x -> o <> None.
Proof. congruence. Qed.

Lemma exec_complete_aux (r : regex) p rest c c1 :
  Matches r p rest c c1 ->
  (forall k, accepts k rest c1 -> exec r (p ++ rest) c k <> None)
  /\ star_complete r p rest c c1.
Proof.
  induction 1 as [ rest c | cls x rest c Hx
                 | r1 r2 p1 p2 rest c c1 c2 _ [IH1 _] _ [IH2 _]
                 | r1 r2 p rest c c1 _ [IH _] | r1 r2 p rest c c1 _ [IH _]
                 | g r1 rest c
                 | g r1 p1 p2 rest c c1 c2 _ [IH1 _] Hne _ [_ IH2]
                 | g r1 p rest c c1 _ [IH _] | c | c ].
  - split; [|intros g r1 E; discriminate]. intros k Hk. exact Hk.
  - split; [|intros g r1 E; discriminate]. intros k Hk. simpl.
    rewrite Hx. exact Hk.
  - split; [|intros g r1' E; discriminate]. intros k Hk. simpl.
    rewrite <- app_assoc. apply IH1. unfold accepts. apply IH2. exact Hk.
  - split; [|intros g r1' E; discriminate]. intros k Hk. simpl.
    specialize (IH k Hk).
    destruct (exec r1 (p ++ rest) c k) eqn:E; [discriminate | exfalso; auto].
  - split; [|intros g r1' E; discriminate]. intros k Hk. simpl.
    destruct (exec r1 (p ++ rest) c k); [discriminate|]. apply IH, Hk.
  - assert (Hloop : forall k fuel, accepts k rest c ->
              star_loop (exec r1) g k fuel rest c <> None).
    { intros k fuel Hk. destruct fuel as [|fuel]; simpl; [exact Hk|].
      destruct g.
      - destruct (exec r1 rest c _); [discriminate | exact Hk].
      - unfold accepts in Hk.
        destruct (k rest c); [discriminate | exfalso; auto]. }
    split.
    + intros k Hk. simpl. apply Hloop, Hk.
    + intros g' r1' E k fuel Hk _. injection E as <- <-. apply Hloop, Hk.
  - assert (Hloop : forall k fuel, accepts k rest c2 ->
              (List.length (p1 ++ p2) <= fuel)%nat ->
              star_loop (exec r1) g k fuel ((p1 ++ p2) ++ rest) c <> None).
    { intros k fuel Hk Hfuel. rewrite length_app in Hfuel.
      destruct fuel as [|fuel].
      { destruct p1; [congruence | simpl in Hfuel; lia]. }
      assert (Hmore :
        exec r1 ((p1 ++ p2) ++ rest) c (fun s1 c1 =>
          if (List.length s1 <? List.length ((p1 ++ p2) ++ rest))%nat
          then star_loop (exec r1) g k fuel s1 c1 else None) <> None).
      { rewrite <- app_assoc. apply IH1. unfold accepts.
        assert (Hlt : (List.length (p2 ++ rest)
                       <? List.length (p1 ++ p2 ++ rest))%nat = true).
        { apply Nat.ltb_lt. rewrite (length_app p1).
          destruct p1; [congruence | simpl; lia]. }
        rewrite Hlt. apply (IH2 g r1 eq_refl); [exact Hk|].
        destruct p1; [congruence | simpl in Hfuel; lia]. }
      simpl. destruct g.
      - destruct (exec r1 _ c _) eqn:E; [discriminate | exfalso; auto].
      - destruct (k _ c); [discriminate | exact Hmore]. }
    split.
    + intros k Hk. simpl. apply Hloop; [exact Hk|].
      rewrite !length_app. lia.
    + intros g' r1' E k fuel Hk Hfuel. injection E as <- <-.
      apply Hloop; assumption.
  - split; [|intros g' r1' E; discriminate]. intros k Hk. simpl.
    apply IH. unfold accepts. rewrite firstn_consumed. exact Hk.
  - split; [|intros g r1 E; discriminate]. intros k Hk. exact Hk.
  - split; [|intros g r1 E; discriminate]. intros k Hk. exact Hk.
Qed.

(** When the pattern has a match that the continuation accepts, the
    matcher returns a result (that of the match of highest priority). *)
Lemma exec_complete (r : regex) p rest c c1 k :
  Matches r p rest c c1 -> k rest c1 <> None ->
  exec r (p ++ rest) c k <> None.
Proof. intros M Hk. apply (proj1 (exec_complete_aux r p rest c c1 M)), Hk. Qed.

Lemma rmatch_complete (r : regex) p rest c1 :
  Matches r p rest [] c1 -> exists m, rmatch r (p ++ rest) = Some m.
Proof.
  intro M. unfold rmatch.
  destruct (exec r (p ++ rest) [] _) as [m|] eqn:E; [exists m; reflexivity|].
  exfalso. revert E. eapply exec_complete; [exact M | discriminate].
Qed.

End MatcherCompleteness.

(** * Deduplication *)

Section Dedupe.

Lemma in_seen_app (x : ActItem) (s1 s2 : list ActItem) :
  in_seen x (s1 ++ s2) = in_seen x s1 || in_seen x s2.
Proof. unfold in_seen. apply existsb_app. Qed.

Lemma in_seen_rev (x : ActItem) (s : list ActItem) :
  in_seen x (rev s) = in_seen x s.
Proof.
  induction s as [|y s IH]; simpl; [reflexivity|].
  rewrite in_seen_app, IH. simpl.
  rewrite orb_false_r. apply orb_comm.
Qed.

(** The items kept so far are exactly the members of [seen]: appending one
    more item to the input keeps it unless the set already holds an item
    with its hash that compares equal to it. *)
Lemma dedupe_from_snoc (l : list ActItem) :
  forall (seen : list ActItem) (x : ActItem),
    dedupe_from seen (l ++ [x])
    = dedupe_from seen l
      ++ (if in_seen x (rev (dedupe_from seen l) ++ seen) then [] else [x]).
Proof.
  induction l as [|y l IH]; intros seen x; simpl.
  - destruct (in_seen x seen); reflexivity.
  - destruct (in_seen y seen) eqn:Hy.
    + apply IH.
    + simpl. rewrite IH. rewrite <- app_assoc. reflexivity.
Qed.

Lemma dedupe_snoc (l : list ActItem) (x : ActItem) :
  dedupe (l ++ [x])
  = if in_seen x (dedupe l) then dedupe l else dedupe l ++ [x].
Proof.
  unfold dedupe. rewrite dedupe_from_snoc.
  rewrite app_nil_r, in_seen_rev.
  destruct (in_seen x (dedupe_from [] l)); [apply app_nil_r | reflexivity].
Qed.

(** What [dedupe_from] keeps is taken from its input. *)
Lemma dedupe_from_incl (l : list ActItem) :
  forall seen x, In x (dedupe_from seen l) -> In x l.
Proof.
  induction l as [|y l IH]; intros seen x; simpl; [tauto|].
  destruct (in_seen y seen).
  - intro H. right. eapply IH, H.
  - intros [H | H]; [left; exact H | right; eapply IH, H].
Qed.

(** Nothing that is kept was in the set before. *)
Lemma dedupe_from_fresh (l : list ActItem) :
  forall seen x, In x (dedupe_from seen l) -> in_seen x seen = false.
Proof.
  induction l as [|y l IH]; intros seen x; simpl; [tauto|].
  destruct (in_seen y seen) eqn:Hy.
  - apply IH.
  - intros [H | H].
    + subst. exact Hy.
    + apply IH in H. simpl in H. apply orb_false_elim in H. apply H.
Qed.

Lemma dedupe_from_app (l1 : list ActItem) :
  forall seen l2,
    dedupe_from seen (l1 ++ l2)
    = dedupe_from seen l1
      ++ dedupe_from (rev (dedupe_from seen l1) ++ seen) l2.
Proof.
  induction l1 as [|y l1 IH]; intros seen l2; simpl; [reflexivity|].
  destruct (in_seen y seen).
  - apply IH.
  - simpl. rewrite IH, <- app_assoc. reflexivity.
Qed.

(** Deduplicating twice changes nothing. *)
Lemma dedupe_from_idem (l : list ActItem) :
  forall seen, dedupe_from seen (dedupe_from seen l) = dedupe_from seen l.
Proof.
  induction l as [|y l IH]; intro seen; simpl; [reflexivity|].
  destruct (in_seen y seen) eqn:Hy.
  - apply IH.
  - simpl. rewrite Hy, IH. reflexivity.
Qed.

Lemma dedupe_nonempty (l : list ActItem) : l <> [] -> dedupe l <> [].
Proof.
  destruct l as [|x l]; [congruence|]. intros _.
  unfold dedupe. simpl. discriminate.
Qed.

End Dedupe.

(** * The invariant of parsed items *)

(** ** Stripping *)

Section Strip.

Variable p : cp -> bool.

Lemma lstrip_head_ok (s : str) : head_ok p (lstrip_by p s).
Proof.
  induction s as [|x s IH]; simpl; [exact I|].
  destruct (p x) eqn:E; [exact IH | exact E].
Qed.

Lemma lstrip_fix (s : str) : head_ok p s -> lstrip_by p s = s.
Proof.
  destruct s as [|x s]; simpl; [reflexivity|]. intros ->. reflexivity.
Qed.

Lemma lstrip_incl (s : str) (c : cp) : In c (lstrip_by p s) -> In c s.
Proof.
  induction s as [|x s IH]; simpl; [tauto|].
  destruct (p x); simpl; tauto.
Qed.

Lemma lstrip_keeps_last (s : str) (x : cp) :
  p x = false -> exists w, lstrip_by p (s ++ [x]) = w ++ [x].
Proof.
  intro Hx. induction s as [|y s IH]; simpl.
  - rewrite Hx. exists []. reflexivity.
  - destruct (p y).
    + exact IH.
    + exists (y :: s). reflexivity.
Qed.

Lemma rstrip_head_ok (s : str) : head_ok p s -> head_ok p (rstrip_by p s).
Proof.
  unfold rstrip_by. destruct s as [|x s]; simpl; [trivial|].
  intro Hx. destruct (lstrip_keeps_last (rev s) x Hx) as [w ->].
  rewrite rev_app_distr. simpl. exact Hx.
Qed.

Lemma strip_by_ends_clean (s : str) : ends_clean p (strip_by p s).
Proof.
  unfold strip_by. split.
  - apply rstrip_head_ok, lstrip_head_ok.
  - unfold rstrip_by. rewrite rev_involutive. apply lstrip_head_ok.
Qed.

Lemma ends_clean_fix (s : str) : ends_clean p s -> strip_by p s = s.
Proof.
  intros [H1 H2]. unfold strip_by, rstrip_by.
  rewrite (lstrip_fix _ H1), (lstrip_fix _ H2). apply rev_involutive.
Qed.

Lemma strip_by_incl (s : str) (c : cp) : In c (strip_by p s) -> In c s.
Proof.
  unfold strip_by, rstrip_by. intro H.
  apply in_rev, lstrip_incl, in_rev in H. apply lstrip_incl in H. exact H.
Qed.

Lemma strip_by_nonempty (x : cp) (t : str) :
  p x = false -> strip_by p (x :: t) <> [].
Proof.
  intro Hx. unfold strip_by, rstrip_by. simpl. rewrite Hx. simpl.
  destruct (lstrip_keeps_last (rev t) x Hx) as [w ->].
  rewrite rev_app_distr. simpl. discriminate.
Qed.

End Strip.

Lemma head_ok_weaken (p q : cp -> bool) (s : str) :
  (forall c, In c s -> q c = true -> p c = true) ->
  head_ok p s -> head_ok q s.
Proof.
  intros H Hx. destruct s as [|x s]; simpl in *; [exact I|].
  destruct (q x) eqn:E; [|reflexivity].
  rewrite (H x (or_introl eq_refl) E) in Hx. discriminate.
Qed.

Lemma ends_clean_weaken (p q : cp -> bool) (s : str) :
  (forall c, In c s -> q c = true -> p c = true) ->
  ends_clean p s -> ends_clean q s.
Proof.
  intros H [H1 H2]. split.
  - apply (head_ok_weaken p q s H H1).
  - apply (head_ok_weaken p q (rev s)); [|exact H2].
    intros c Hc. apply H. apply in_rev. exact Hc.
Qed.

(** ** Normalised lines *)

Section Normalize.

Lemma split_ws_aux_words (s : str) :
  forall cur,
    (forall c, In c cur -> isspace c = false) ->
    Forall word_ok (split_ws_aux cur s).
Proof.
  induction s as [|x s IH]; intros cur Hcur; simpl.
  - destruct cur as [|y cur]; constructor; [|constructor].
    split.
    + intro E. apply (f_equal (@List.length cp)) in E.
      rewrite length_rev in E. discriminate.
    + intros c Hc. apply Hcur, in_rev. exact Hc.
  - destruct (isspace x) eqn:Ex.
    + destruct cur as [|y cur].
      * apply IH. intros c [].
      * constructor; [|apply IH; intros c []].
        split.
        -- intro E. apply (f_equal (@List.length cp)) in E.
           rewrite length_rev in E. discriminate.
        -- intros c Hc. apply Hcur, in_rev. exact Hc.
    + apply IH. intros c [<- | Hc]; [exact Ex | apply Hcur, Hc].
Qed.

Lemma split_ws_words (s : str) : Forall word_ok (split_ws s).
Proof. apply split_ws_aux_words. intros c []. Qed.

Lemma join_space_chars (ws : list str) (c : cp) :
  Forall word_ok ws -> In c (join (u " ") ws) -> isspace c = true -> c = sp.
Proof.
  induction 1 as [|w ws [_ Hw] Hws IH]; simpl; [tauto|].
  destruct ws as [|w' ws'].
  - intros Hc E. rewrite (Hw c Hc) in E. discriminate.
  - intros Hc E. apply in_app_or in Hc. destruct Hc as [Hc | Hc].
    + rewrite (Hw c Hc) in E. discriminate.
    + change (u " ") with [sp] in Hc. simpl in Hc.
      destruct Hc as [<- | Hc]; [reflexivity|]. apply IH; assumption.
Qed.

Lemma join_space_head (ws : list str) (x : cp) (t : str) :
  Forall word_ok ws -> join (u " ") ws = x :: t -> isspace x = false.
Proof.
  intros H E. destruct H as [|w ws [Hne Hw] Hws]; [discriminate|].
  destruct w as [|y w]; [congruence|].
  apply Hw. destruct ws; simpl in E; injection E as -> _; left; reflexivity.
Qed.

(** A normalised line starts with a character that is no whitespace, and
    its only whitespace is the blank. *)
Lemma normalize_head (s : str) (x : cp) (t : str) :
  normalize s = x :: t -> isspace x = false.
Proof. apply join_space_head, split_ws_words. Qed.

Lemma normalize_spaces (s : str) (c : cp) :
  In c (normalize s) -> isspace c = true -> c = sp.
Proof. apply join_space_chars, split_ws_words. Qed.

End Normalize.

(** ** The items of [_parse_item] *)

Section ParsedItems.

Lemma new_ActItem_inv n q un pr it :
  new_ActItem n q un pr = Some it ->
  it = mkItem n q un pr /\ flt fzero q = true /\ flt fzero pr = true.
Proof.
  unfold new_ActItem.
  destruct (flt fzero q) eqn:Hq; [|discriminate].
  destruct (flt fzero pr) eqn:Hp; [|discriminate].
  simpl. intro H. injection H as <-. auto.
Qed.

Ltac unbind H :=
  repeat match type of H with
         | bind ?e _ = Some _ =>
           let E := fresh "E" in
           destruct e eqn:E; [simpl in H | discriminate H]
         end.

Lemma count_first_item_inv m it :
  count_first_item m = Some it ->
  exists n, group m "name" = Some n
            /\ name it = strip_chars (u " ,") n
            /\ flt fzero (quantity it) = true
            /\ flt fzero (price it) = true.
Proof.
  unfold count_first_item. intro H. unbind H.
  apply new_ActItem_inv in H. destruct H as (-> & Hq & Hp).
  eexists. repeat split; eauto.
Qed.

Lemma module_item_inv m it :
  module_item m = Some it ->
  exists n, group m "name" = Some n
            /\ name it = strip n
            /\ flt fzero (quantity it) = true
            /\ flt fzero (price it) = true.
Proof.
  unfold module_item. intro H. unbind H.
  apply new_ActItem_inv in H. destruct H as (-> & Hq & Hp).
  eexists. repeat split; eauto.
Qed.

Lemma canonical_item_inv m it :
  canonical_item m = Some it ->
  exists n, group m "name" = Some n
            /\ name it = strip (strip n)
            /\ flt fzero (quantity it) = true
            /\ flt fzero (price it) = true.
Proof.
  unfold canonical_item. intro H. unbind H.
  apply new_ActItem_inv in H. destruct H as (-> & Hq & Hp).
  eexists. repeat split; eauto.
Qed.

(** The name group of the standard pattern and of the module pattern is
    a non-empty prefix of the line. *)
Lemma lazy_name_prefix (rest_pattern : regex) (line : str) (m : caps) :
  ~ In "name"%string (names rest_pattern) ->
  rmatch (Seq (Group "name" (Plus false (Chr any))) rest_pattern) line
  = Some m ->
  exists x t rest, group m "name" = Some (x :: t) /\ line = x :: t ++ rest.
Proof.
  intros Hfree H. apply rmatch_sound in H.
  destruct H as (p & s1 & c1 & -> & M & ->).
  inversion M as [ | | r1 r2 p1 p2 rest c c' c2 M1 M2 | | | | | | | ]; subst.
  inversion M1 as [ | | | | | | | g r p' rest' c c'' M3 | | ]; subst.
  unfold Plus in M3.
  inversion M3 as [ | | r1 r2 pa pb rest c c' c2 Ma Mb | | | | | | | ]; subst.
  inversion Ma; subst.
  exists x, pb, (p2 ++ s1). split.
  - simpl. rewrite (group_frame _ _ _ _ _ "name" M2 Hfree). reflexivity.
  - simpl. rewrite <- app_assoc. reflexivity.
Qed.

Lemma item_pattern_name (line : str) (m : caps) :
  rmatch ITEM_PATTERN line = Some m ->
  exists x t rest, group m "name" = Some (x :: t) /\ line = x :: t ++ rest.
Proof.
  unfold ITEM_PATTERN. cbn [Seqs]. apply lazy_name_prefix.
  vm_compute. intuition discriminate.
Qed.

Lemma module_pattern_name (line : str) (m : caps) :
  rmatch MODULE_PATTERN line = Some m ->
  exists x t rest, group m "name" = Some (x :: t) /\ line = x :: t ++ rest.
Proof.
  unfold MODULE_PATTERN. cbn [Seqs]. apply lazy_name_prefix.
  vm_compute. intuition discriminate.
Qed.

(** The name group of the quantity-first pattern is a part of the line. *)
Lemma count_first_name (line : str) (m : caps) (n : str) :
  rmatch COUNT_FIRST_PATTERN line = Some m ->
  group m "name" = Some n ->
  forall c, In c n -> In c line.
Proof.
  intros H Hn. apply rmatch_sound in H.
  destruct H as (p & s1 & c1 & -> & M & ->).
  unfold COUNT_FIRST_PATTERN in M. cbn [Seqs] in M.
  inversion M as [ | | r1 r2 p1 p2 rest c c' c2 M1 M2 | | | | | | | ]; subst.
  inversion M2 as [ | | r1 r2 p3 p4 rest c c'' c2 M3 M4 | | | | | | | ]; subst.
  inversion M4 as [ | | r1 r2 p5 p6 rest c c3 c2 M5 M6 | | | | | | | ]; subst.
  inversion M5 as [ | | | | | | | g r p' rest' c c4 M7 | | ]; subst.
  assert (Hfree : ~ In "name"%string
                    (names (Seq (Alt (LitI (u "по")) (Chr (one (c_ ":"))))
                              (Seq (Star true ws)
                                 (Group "price" (Plus true digit)))))).
  { vm_compute. intuition discriminate. }
  simpl in Hn. rewrite (group_frame _ _ _ _ _ "name" M6 Hfree) in Hn.
  simpl in Hn. injection Hn as ->.
  intros c Hc. rewrite !in_app_iff. tauto.
Qed.

(** A unit looked up in [UNIT_ALIASES] is a value of the table or the
    unit itself when it is no key: the table leaves it as it is. *)
Lemma alias_lookup (un : str) :
  dict_get UNIT_ALIASES un un = un
  \/ In (dict_get UNIT_ALIASES un un) (List.map snd UNIT_ALIASES).
Proof.
  unfold UNIT_ALIASES. cbn [dict_get List.map snd].
  repeat match goal with
         | |- context [str_eqb un ?k] =>
           destruct (str_eqb un k); [right; simpl; tauto|]
         end.
  left. reflexivity.
Qed.

Lemma alias_normal (un : str) :
  un <> [] ->
  dict_get UNIT_ALIASES un un <> []
  /\ dict_get UNIT_ALIASES (dict_get UNIT_ALIASES un un)
                           (dict_get UNIT_ALIASES un un)
     = dict_get UNIT_ALIASES un un.
Proof.
  intro Hne. pose proof (alias_lookup un) as Hun.
  remember (dict_get UNIT_ALIASES un un) as r eqn:Er. symmetry in Er.
  destruct Hun as [E | E].
  - rewrite E in Er |- *. auto.
  - simpl in E.
    repeat (destruct E as [<- | E];
            [split; [discriminate | vm_compute; reflexivity]|]).
    destruct E.
Qed.

Lemma lower_after_nonempty (s before : str) :
  s <> [] -> lower_after before s <> [].
Proof.
  destruct s as [|c t]; [congruence|]. intros _. cbn [lower_after].
  unfold lower_full.
  destruct (c =? 931)%N; [discriminate|].
  destruct (c =? 304)%N; discriminate.
Qed.

Lemma canonical_item_unit m it :
  canonical_item m = Some it ->
  exists g, g <> [] /\ unit it = dict_get UNIT_ALIASES (lower g) (lower g).
Proof.
  unfold canonical_item. intro H. unbind H.
  apply new_ActItem_inv in H. destruct H as (-> & _ & _). simpl.
  destruct (group m "unit") as [[|x g]|].
  - exists (u "шт."). split; [discriminate | reflexivity].
  - exists (x :: g). split; [discriminate | reflexivity].
  - exists (u "шт."). split; [discriminate | reflexivity].
Qed.

Lemma count_first_item_unit m it :
  count_first_item m = Some it -> unit it = u "шт.".
Proof.
  unfold count_first_item. intro H. unbind H.
  apply new_ActItem_inv in H. destruct H as (-> & _ & _). reflexivity.
Qed.

Lemma module_item_unit m it :
  module_item m = Some it -> unit it = u "мод.".
Proof.
  unfold module_item. intro H. unbind H.
  apply new_ActItem_inv in H. destruct H as (-> & _ & _). reflexivity.
Qed.

Lemma parse_item_unit (line : str) (it : ActItem) :
  _parse_item line = Some it ->
  unit it <> []
  /\ dict_get UNIT_ALIASES (unit it) (unit it) = unit it.
Proof.
  unfold _parse_item.
  destruct (rmatch ITEM_PATTERN (normalize line)) as [m|].
  - intro H. apply canonical_item_unit in H. destruct H as (g & Hg & ->).
    apply alias_normal. apply lower_after_nonempty, Hg.
  - destruct (rmatch COUNT_FIRST_PATTERN (normalize line)) as [m|].
    + intro H. apply count_first_item_unit in H. rewrite H.
      split; [discriminate | vm_compute; reflexivity].
    + destruct (rmatch MODULE_PATTERN (normalize line)) as [m|]; [|discriminate].
      intro H. apply module_item_unit in H. rewrite H.
      split; [discriminate | vm_compute; reflexivity].
Qed.

End ParsedItems.

Section ParseItemInvariant.

Lemma strip_strip (s : str) : strip (strip s) = strip s.
Proof. apply ends_clean_fix, strip_by_ends_clean. Qed.

Lemma lazy_name_strip (line0 : str) (x : cp) (t rest : str) :
  normalize line0 = x :: t ++ rest -> strip (x :: t) <> [].
Proof.
  intro E. apply strip_by_nonempty. eapply normalize_head. exact E.
Qed.

Lemma collect_items_in (lines : list str) (it : ActItem) :
  In it (collect_items lines) ->
  exists line, In line lines /\ _parse_item line = Some it.
Proof.
  induction lines as [|l lines IH]; simpl; [tauto|].
  destruct (is_comment l).
  - intro H. destruct (IH H) as (line & Hin & Hp). exists line. auto.
  - destruct (_parse_item l) as [it'|] eqn:E.
    + intros [<- | H].
      * exists l. auto.
      * destruct (IH H) as (line & Hin & Hp). exists line. auto.
    + intro H. destruct (IH H) as (line & Hin & Hp). exists line. auto.
Qed.

Lemma parse_act_items (text : str) (a : ActData) (it : ActItem) :
  parse_act text = Ok a -> In it (items a) ->
  exists line, _parse_item line = Some it.
Proof.
  unfold parse_act.
  destruct (nonblank_lines (clean_text text)) as [|first rest]; [discriminate|].
  destruct (parse_header first) as [[ds obj]|]; [|discriminate].
  destruct (strptime_dmY ds) as [d|]; [|discriminate].
  destruct (dedupe (collect_items rest)) as [|i its] eqn:E; [discriminate|].
  intro H. injection H as <-. simpl items. intro Hin.
  rewrite <- E in Hin.
  apply dedupe_from_incl, collect_items_in in Hin.
  destruct Hin as (line & _ & Hp). exists line. exact Hp.
Qed.

Lemma parse_item_valid (line : str) (it : ActItem) :
  _parse_item line = Some it ->
  flt fzero (quantity it) = true
  /\ flt fzero (price it) = true
  /\ strip (name it) = name it
  /\ (rmatch ITEM_PATTERN (normalize line) <> None
      \/ rmatch COUNT_FIRST_PATTERN (normalize line) = None ->
      name it <> []).
Proof.
  unfold _parse_item.
  destruct (rmatch ITEM_PATTERN (normalize line)) as [m|] eqn:EI.
  - intro H. apply canonical_item_inv in H.
    destruct H as (n & Hn & Hname & Hq & Hp).
    apply item_pattern_name in EI. destruct EI as (x & t & rest & Hg & El).
    rewrite Hg in Hn. injection Hn as <-.
    rewrite Hname, !strip_strip.
    repeat split; auto. intros _.
    eapply lazy_name_strip; exact El.
  - destruct (rmatch COUNT_FIRST_PATTERN (normalize line)) as [m|] eqn:EC.
    + intro H. apply count_first_item_inv in H.
      destruct H as (n & Hn & Hname & Hq & Hp).
      repeat split; auto.
      * rewrite Hname. apply ends_clean_fix.
        apply (ends_clean_weaken (mem_cp (u " ,")) isspace);
          [|apply strip_by_ends_clean].
        intros c Hc Hs. apply strip_by_incl in Hc.
        apply (count_first_name _ _ _ EC Hn) in Hc.
        rewrite (normalize_spaces _ _ Hc Hs). reflexivity.
      * intros [H | H]; congruence.
    + destruct (rmatch MODULE_PATTERN (normalize line)) as [m|] eqn:EM;
        [|discriminate].
      intro H. apply module_item_inv in H.
      destruct H as (n & Hn & Hname & Hq & Hp).
      apply module_pattern_name in EM. destruct EM as (x & t & rest & Hg & El).
      rewrite Hg in Hn. injection Hn as <-.
      rewrite Hname, !strip_strip.
      repeat split; auto. intros _.
      eapply lazy_name_strip; exact El.
Qed.

End ParseItemInvariant.

(** * Floats, and the first of two equal items *)

Section FloatFacts.

Lemma shr_1_nonneg mrs : (0 <= shr_m mrs)%Z -> (0 <= shr_m (shr_1 mrs))%Z.
Proof.
  destruct mrs as [m r s]. simpl.
  destruct m as [|[q|q|]|[q|q|]]; simpl; lia.
Qed.

Lemma iter_shr_1_nonneg (n : positive) :
  forall mrs, (0 <= shr_m mrs)%Z -> (0 <= shr_m (iter_pos shr_1 n mrs))%Z.
Proof.
  induction n as [n IH|n IH|]; intros mrs H; simpl.
  - apply IH, IH, shr_1_nonneg, H.
  - apply IH, IH, H.
  - apply shr_1_nonneg, H.
Qed.

Lemma shr_fexp_nonneg m e l :
  (0 <= m)%Z -> (0 <= shr_m (fst (shr_fexp prec emax m e l)))%Z.
Proof.
  intro H. unfold shr_fexp, shr.
  assert (H0 : (0 <= shr_m (shr_record_of_loc m l))%Z).
  { destruct l as [|[]]; simpl; exact H. }
  destruct (fexp prec emax (Zdigits2 m + e) - e)%Z; simpl;
    [exact H0 | apply iter_shr_1_nonneg, H0 | exact H0].
Qed.

Lemma round_nearest_even_nonneg m l :
  (0 <= m)%Z -> (0 <= round_nearest_even m l)%Z.
Proof.
  intro H. destruct l as [|[]]; simpl; try lia.
  destruct (Z.even m); lia.
Qed.

Lemma binary_round_aux_not_nan s m e l :
  (0 <= m)%Z -> not_nan (binary_round_aux prec emax s m e l).
Proof.
  intro H. unfold binary_round_aux.
  pose proof (shr_fexp_nonneg m e l H) as H1.
  destruct (shr_fexp prec emax m e l) as [mrs' e']. simpl in H1.
  pose proof (shr_fexp_nonneg _ e' loc_Exact
                (round_nearest_even_nonneg _ (loc_of_shr_record mrs') H1)) as H2.
  destruct (shr_fexp prec emax
              (round_nearest_even (shr_m mrs') (loc_of_shr_record mrs')) e'
              loc_Exact) as [mrs'' e'']. simpl in H2.
  destruct (shr_m mrs''); [discriminate | | lia].
  destruct (e'' <=? emax - prec)%Z; discriminate.
Qed.

Lemma of_ratio_not_nan s n d : (0 <= n)%Z -> not_nan (of_ratio s n d).
Proof.
  intro H. unfold of_ratio. destruct n as [|n|n]; [discriminate | | lia].
  unfold SFdiv_core_binary.
  match goal with
  | |- context [Z.div_eucl ?a ?b] =>
    pose proof (Z.div_eucl_eq a b ltac:(lia)) as Heq;
    pose proof (Z.mod_pos_bound a b ltac:(lia)) as Hmod;
    assert (Ha : (0 <= a)%Z);
    [ | unfold Z.modulo in Hmod; destruct (Z.div_eucl a b) as [q r] ]
  end.
  - match goal with
    | |- (0 <= match ?s with _ => _ end)%Z => destruct s
    end; try lia. apply Z.shiftl_nonneg. lia.
  - apply binary_round_aux_not_nan. nia.
Qed.

Lemma div_half_even_nonneg n d : (0 <= n)%Z -> (0 < d)%Z -> (0 <= div_half_even n d)%Z.
Proof.
  intros Hn Hd. unfold div_half_even.
  pose proof (Z.div_pos n d Hn Hd).
  destruct (2 * (n mod d) ?= d)%Z; [destruct (Z.even (n / d))| |]; lia.
Qed.

Lemma round2_not_nan x : not_nan x -> not_nan (round2 x).
Proof.
  intro H. destruct x as [s|s| |s m e]; simpl; try exact H.
  destruct e as [|e|e]; try discriminate.
  apply of_ratio_not_nan. unfold hundredths.
  apply div_half_even_nonneg; [lia|]. apply Z.pow_pos_nonneg; lia.
Qed.

Lemma feq_refl x : not_nan x -> feq x x = true.
Proof.
  intro H. unfold feq, SFeqb.
  destruct x as [s|s| |s m e]; simpl.
  - reflexivity.
  - destruct s; reflexivity.
  - congruence.
  - rewrite Z.compare_refl, Pos.compare_cont_refl.
    destruct s; reflexivity.
Qed.

(** The difference of a finite float and itself is zero. *)
Lemma fsub_self x : is_finite x = true -> fabs (fsub x x) = fzero.
Proof.
  destruct x as [s|s| |s m e]; simpl; try discriminate; intros _.
  - destruct s; reflexivity.
  - unfold fsub, SFsub. rewrite Z.min_id.
    unfold shl_align. rewrite !Z.sub_diag. reflexivity.
Qed.

(** The sign of a rounded number does not change its magnitude, so the
    magnitude of a difference does not depend on the order of its
    operands. *)
Lemma fabs_round_aux_sign s s' m e l :
  fabs (binary_round_aux prec emax s m e l)
  = fabs (binary_round_aux prec emax s' m e l).
Proof.
  unfold binary_round_aux.
  destruct (shr_fexp prec emax m e l) as [mrs' e'].
  destruct (shr_fexp prec emax _ e' loc_Exact) as [mrs'' e''].
  destruct (shr_m mrs''); [reflexivity | | reflexivity].
  destruct (e'' <=? emax - prec)%Z; reflexivity.
Qed.

Lemma fabs_normalize_opp z e :
  fabs (binary_normalize prec emax (- z) e false)
  = fabs (binary_normalize prec emax z e false).
Proof.
  destruct z as [|m|m]; simpl; [reflexivity | |];
    unfold binary_round;
    destruct (shl_align m e _) as [mz ez]; apply fabs_round_aux_sign.
Qed.

Lemma fabs_fsub_sym x y : fabs (fsub x y) = fabs (fsub y x).
Proof.
  destruct x as [sx|sx| |sx mx ex], y as [sy|sy| |sy my ey];
    try reflexivity; try (destruct sx, sy; reflexivity).
  unfold fsub, SFsub. rewrite (Z.min_comm ey ex).
  rewrite <- fabs_normalize_opp. f_equal. f_equal. lia.
Qed.

Lemma str_eqb_sym (s t : str) : str_eqb s t = str_eqb t s.
Proof.
  unfold str_eqb.
  destruct (list_eq_dec N.eq_dec s t), (list_eq_dec N.eq_dec t s); congruence.
Qed.

Lemma str_eqb_refl (s : str) : str_eqb s s = true.
Proof.
  unfold str_eqb. destruct (list_eq_dec N.eq_dec s s); congruence.
Qed.

Lemma str_eqb_eq (s t : str) : str_eqb s t = true -> s = t.
Proof.
  unfold str_eqb. destruct (list_eq_dec N.eq_dec s t); congruence.
Qed.

End FloatFacts.

Section KeepFirst.

Lemma same_identity_in_set (a b : ActItem) :
  same_identity a b -> is_finite (price a) = true ->
  hash_eqb a b = true /\ item_eq a b = true.
Proof.
  intros (Hn & Hu & Hp) Hfin. unfold hash_eqb, key_eqb, hash_key, item_eq.
  rewrite <- Hn, <- Hu, <- Hp, !str_eqb_refl. simpl. split.
  - apply feq_refl, round2_not_nan.
    destruct (price a); try discriminate.
  - rewrite (fsub_self _ Hfin). reflexivity.
Qed.

Lemma in_seen_false (x : ActItem) (seen : list ActItem) :
  in_seen x seen = false ->
  forall y, In y seen -> hash_eqb y x && item_eq y x = false.
Proof.
  unfold in_seen. intros H y Hy.
  destruct (hash_eqb y x && item_eq y x) eqn:E; [|reflexivity].
  assert (existsb (fun y => hash_eqb y x && item_eq y x) seen = true).
  { apply existsb_exists. exists y. auto. }
  congruence.
Qed.

Lemma in_seen_none (x : ActItem) (seen : list ActItem) :
  (forall y, In y seen -> item_eq y x = false) -> in_seen x seen = false.
Proof.
  intro H. unfold in_seen.
  destruct (existsb _ seen) eqn:E; [|reflexivity].
  apply existsb_exists in E. destruct E as (y & Hy & E).
  rewrite (H y Hy), andb_false_r in E. discriminate.
Qed.

Lemma dedupe_keeps_first (l1 l2 l3 : list ActItem) (a b : ActItem) :
  in_seen a (dedupe l1) = false ->
  same_identity a b ->
  is_finite (price a) = true ->
  exists r,
    dedupe (l1 ++ a :: l2 ++ b :: l3) = dedupe l1 ++ a :: r
    /\ (forall c, In c r -> In c (l2 ++ l3))
    /\ (forall c, In c (dedupe l1 ++ r) -> ~ same_identity a c).
Proof.
  intros Hfirst Hab Hfin.
  assert (Hkeep : dedupe (l1 ++ [a]) = dedupe l1 ++ [a]).
  { rewrite dedupe_snoc, Hfirst. reflexivity. }
  exists (dedupe_from (rev (dedupe (l1 ++ [a])) ++ []) (l2 ++ b :: l3)).
  assert (Hnot : forall c,
             In c (dedupe_from (rev (dedupe (l1 ++ [a])) ++ []) (l2 ++ b :: l3)) ->
             ~ same_identity a c).
  { intros c Hc Hac. apply dedupe_from_fresh in Hc.
    apply in_seen_false with (y := a) in Hc.
    - destruct (same_identity_in_set a c Hac Hfin) as [H1 H2].
      rewrite H1, H2 in Hc. discriminate.
    - rewrite app_nil_r, <- in_rev, Hkeep. apply in_or_app. right. left.
      reflexivity. }
  split; [|split].
  - change (a :: l2 ++ b :: l3) with ([a] ++ (l2 ++ b :: l3)).
    rewrite app_assoc. unfold dedupe at 1. rewrite dedupe_from_app.
    fold (dedupe (l1 ++ [a])). rewrite Hkeep at 1.
    rewrite <- app_assoc. reflexivity.
  - intros c Hc. pose proof (Hnot c Hc) as Hn.
    apply dedupe_from_incl in Hc. rewrite in_app_iff in *. simpl in Hc.
    destruct Hc as [Hc | [<- | Hc]]; auto. contradiction.
  - intros c Hc. apply in_app_or in Hc. destruct Hc as [Hc | Hc].
    + intros (Hn & Hu & Hp).
      assert (Hca : same_identity c a) by (repeat split; auto).
      assert (Hfc : is_finite (price c) = true) by (rewrite <- Hp; exact Hfin).
      destruct (same_identity_in_set c a Hca Hfc) as [H1 H2].
      apply (in_seen_false _ _ Hfirst) in Hc.
      rewrite H1, H2 in Hc. discriminate.
    + apply Hnot, Hc.
Qed.

(** What is kept stands in the order of the input. *)
Lemma dedupe_from_subseq (l : list ActItem) :
  forall seen, subseq (dedupe_from seen l) l.
Proof.
  induction l as [|x l IH]; intro seen; simpl; [constructor|].
  destruct (in_seen x seen); constructor; apply IH.
Qed.

(** No kept item is, for the set, equal to one kept before it. *)
Lemma dedupe_from_distinct (l : list ActItem) :
  forall seen,
    ForallOrdPairs (fun a b => hash_eqb a b && item_eq a b = false)
                   (dedupe_from seen l).
Proof.
  induction l as [|x l IH]; intro seen; simpl; [constructor|].
  destruct (in_seen x seen) eqn:Hx; [apply IH|].
  constructor; [|apply IH].
  apply Forall_forall. intros y Hy.
  apply dedupe_from_fresh in Hy.
  apply (in_seen_false _ _ Hy). left. reflexivity.
Qed.

(** An item of the input is kept, or the set holds an item equal to it. *)
Lemma dedupe_from_covers (l : list ActItem) :
  forall seen x,
    In x l ->
    In x (dedupe_from seen l)
    \/ in_seen x (rev (dedupe_from seen l) ++ seen) = true.
Proof.
  induction l as [|y l IH]; intros seen x; simpl; [tauto|].
  intros [<- | Hin].
  - destruct (in_seen y seen) eqn:Hy.
    + right. rewrite in_seen_app, Hy. apply orb_true_r.
    + left. left. reflexivity.
  - destruct (in_seen y seen) eqn:Hy.
    + apply IH, Hin.
    + destruct (IH (y :: seen) x Hin) as [H | H].
      * left. right. exact H.
      * right. simpl. rewrite <- app_assoc. exact H.
Qed.

End KeepFirst.

(** * Empty acts *)

Section EmptyAct.

Lemma collect_items_nil (lines : list str) :
  collect_items lines = [] <->
  Forall (fun line => is_comment line = true \/ _parse_item line = None) lines.
Proof.
  induction lines as [|l lines IH]; simpl.
  - split; [constructor | reflexivity].
  - destruct (is_comment l) eqn:Ec.
    + rewrite IH. split.
      * intro H. constructor; auto.
      * intro H. inversion H. assumption.
    + destruct (_parse_item l) as [it|] eqn:Ep.
      * split; [discriminate|]. intro H. inversion H as [|? ? [H1|H1] ?];
          congruence.
      * rewrite IH. split.
        -- intro H. constructor; auto.
        -- intro H. inversion H. assumption.
Qed.

End EmptyAct.

(** * The date of the header *)

Ltac invM :=
  repeat match goal with
         | H : Matches (Seq _ _) _ _ _ _ |- _ => inversion H; subst; clear H
         | H : Matches (Alt _ _) _ _ _ _ |- _ => inversion H; subst; clear H
         | H : Matches (Chr _) _ _ _ _ |- _ => inversion H; subst; clear H
         | H : Matches (Group _ _) _ _ _ _ |- _ => inversion H; subst; clear H
         | H : Matches Eps _ _ _ _ |- _ => inversion H; subst; clear H
         end.

(** The character classes of the date patterns as arithmetic. *)
Ltac numerals :=
  change (c_ "0") with 48%N in *; change (c_ "1") with 49%N in *;
  change (c_ "2") with 50%N in *; change (c_ "3") with 51%N in *;
  change (c_ "9") with 57%N in *; change (c_ " ") with 32%N in *;
  change (c_ ".") with 46%N in *.

Ltac classes :=
  unfold one, range, ascii_digit, in_range in *; numerals;
  repeat match goal with
         | H : _ && _ = true |- _ => apply andb_true_iff in H; destruct H
         | H : _ || _ = true |- _ => apply orb_true_iff in H; destruct H
         | H : (_ =? _)%N = true |- _ => apply N.eqb_eq in H
         | H : (_ <=? _)%N = true |- _ => apply N.leb_le in H
         | H : (_ =? _)%N = false |- _ => apply N.eqb_neq in H
         | H : (_ <=? _)%N = false |- _ => apply N.leb_gt in H
         end.

Section DateFields.

Lemma day_field_tok p rest c c1 :
  Matches DAY_FIELD p rest c c1 -> day_tok p = true /\ c1 = c.
Proof.
  unfold DAY_FIELD, one_to_nine, digit. intro M. invM; simpl;
    repeat match goal with H : _ = true |- _ => rewrite H; clear H end;
    simpl; rewrite ?orb_true_r; auto.
Qed.

Lemma month_field_tok p rest c c1 :
  Matches MONTH_FIELD p rest c c1 -> month_tok p = true /\ c1 = c.
Proof.
  unfold MONTH_FIELD, one_to_nine. intro M. invM; simpl;
    repeat match goal with H : _ = true |- _ => rewrite H; clear H end;
    simpl; rewrite ?orb_true_r; auto.
Qed.

Lemma year_field_tok p rest c c1 :
  Matches YEAR_FIELD p rest c c1 -> year_tok p = true /\ c1 = c.
Proof.
  unfold YEAR_FIELD, digit. cbn [Seqs]. intro M. invM; simpl;
    repeat match goal with H : _ = true |- _ => rewrite H; clear H end;
    auto.
Qed.

Lemma tok_day_field p rest c :
  day_tok p = true -> Matches DAY_FIELD p rest c c.
Proof.
  unfold DAY_FIELD, one_to_nine, digit.
  destruct p as [|a [|b [|x p]]]; simpl; try discriminate; intro H.
  - apply M_AltR, M_AltR, M_AltR, M_AltL. constructor. exact H.
  - repeat (apply orb_true_iff in H; destruct H as [H | H]);
      apply andb_true_iff in H; destruct H as [Ha Hb].
    + apply M_AltL. eapply (@M_Seq _ _ [a] [b]); constructor; assumption.
    + apply M_AltR, M_AltL.
      eapply (@M_Seq _ _ [a] [b]); constructor; assumption.
    + apply M_AltR, M_AltR, M_AltL.
      eapply (@M_Seq _ _ [a] [b]); constructor; assumption.
    + apply M_AltR, M_AltR, M_AltR, M_AltR.
      eapply (@M_Seq _ _ [a] [b]); constructor; assumption.
Qed.

Lemma tok_month_field p rest c :
  month_tok p = true -> Matches MONTH_FIELD p rest c c.
Proof.
  unfold MONTH_FIELD, one_to_nine.
  destruct p as [|a [|b [|x p]]]; simpl; try discriminate; intro H.
  - apply M_AltR, M_AltR. constructor. exact H.
  - repeat (apply orb_true_iff in H; destruct H as [H | H]);
      apply andb_true_iff in H; destruct H as [Ha Hb].
    + apply M_AltL. eapply (@M_Seq _ _ [a] [b]); constructor; assumption.
    + apply M_AltR, M_AltL.
      eapply (@M_Seq _ _ [a] [b]); constructor; assumption.
Qed.

Lemma tok_year_field p rest c :
  year_tok p = true -> Matches YEAR_FIELD p rest c c.
Proof.
  unfold YEAR_FIELD, digit. cbn [Seqs].
  destruct p as [|a [|b [|x [|y [|z p]]]]]; simpl; try discriminate.
  intro H. do 3 (apply andb_true_iff in H; destruct H as [H ?]).
  eapply (@M_Seq _ _ [a] [b; x; y]); [constructor; assumption|].
  eapply (@M_Seq _ _ [b] [x; y]); [constructor; assumption|].
  eapply (@M_Seq _ _ [x] [y]); constructor; assumption.
Qed.

Lemma strptime_pattern_shape p rest c0 c1 :
  Matches STRPTIME_PATTERN p rest c0 c1 ->
  exists dd mm yyyy,
    p = dd ++ c_ "." :: mm ++ c_ "." :: yyyy
    /\ day_tok dd = true /\ month_tok mm = true /\ year_tok yyyy = true
    /\ c1 = ("Y"%string, yyyy) :: ("m"%string, mm) :: ("d"%string, dd) :: c0.
Proof.
  unfold STRPTIME_PATTERN. cbn [Seqs]. intro M. invM.
  repeat match goal with
         | H : Matches DAY_FIELD _ _ _ _ |- _ =>
           apply day_field_tok in H; destruct H as [? ->]
         | H : Matches MONTH_FIELD _ _ _ _ |- _ =>
           apply month_field_tok in H; destruct H as [? ->]
         | H : Matches YEAR_FIELD _ _ _ _ |- _ =>
           apply year_field_tok in H; destruct H as [? ->]
         | H : one _ _ = true |- _ => apply N.eqb_eq in H; subst
         end.
  do 3 eexists. split; [|repeat split; eassumption].
  reflexivity.
Qed.

Lemma shape_strptime_pattern dd mm yyyy c0 :
  day_tok dd = true -> month_tok mm = true -> year_tok yyyy = true ->
  Matches STRPTIME_PATTERN (dd ++ c_ "." :: mm ++ c_ "." :: yyyy) [] c0
    (("Y"%string, yyyy) :: ("m"%string, mm) :: ("d"%string, dd) :: c0).
Proof.
  intros Hd Hm Hy. unfold STRPTIME_PATTERN. cbn [Seqs].
  eapply M_Seq; [apply M_Group, tok_day_field, Hd|].
  eapply (@M_Seq _ _ [c_ "."]); [constructor; reflexivity|].
  eapply M_Seq; [apply M_Group, tok_month_field, Hm|].
  eapply (@M_Seq _ _ [c_ "."]); [constructor; reflexivity|].
  apply M_Group, tok_year_field, Hy.
Qed.

(** A text has one first dot. *)
Lemma first_dot_unique (l1 l2 r1 r2 : str) :
  ~ In (c_ ".") l1 -> ~ In (c_ ".") l2 ->
  l1 ++ c_ "." :: r1 = l2 ++ c_ "." :: r2 -> l1 = l2 /\ r1 = r2.
Proof.
  revert l2. induction l1 as [|x l1 IH]; intros [|y l2] H1 H2 E;
    simpl in *.
  - injection E as <-. auto.
  - injection E as <- _. tauto.
  - injection E as -> _. tauto.
  - injection E as <- E.
    destruct (IH l2) as [-> ->]; auto.
Qed.

(** The digits of ASCII are decimal digits, with the value that their
    place gives them. *)
Lemma ascii_digit_value (c : cp) :
  ascii_digit c = true -> todecimal c = Some (c - 48)%N.
Proof.
  unfold ascii_digit, todecimal, decimal_zeros. intro H.
  cbn [decimal_of]. change (48 + 9)%N with 57%N. rewrite H. reflexivity.
Qed.

Lemma ascii_digit_decimal (c : cp) : ascii_digit c = true -> isdecimal c = true.
Proof.
  intro H. unfold isdecimal. rewrite (ascii_digit_value c H). reflexivity.
Qed.

Lemma ascii_digit_val (c : cp) :
  ascii_digit c = true -> digit_val c = (Z.of_N c - 48)%Z.
Proof.
  intro H. unfold digit_val. rewrite (ascii_digit_value c H).
  unfold ascii_digit, in_range in H. apply andb_true_iff in H.
  destruct H as [H _]. apply N.leb_le in H. lia.
Qed.

Ltac ascii :=
  unfold ascii_digit, in_range; apply andb_true_iff; rewrite !N.leb_le; lia.

(** The last character of a day field is a decimal digit; the first is
    one too, or the blank of a padded day. *)
Lemma day_tok_shape dd :
  day_tok dd = true ->
  (exists a, dd = [a] /\ isdecimal a = true)
  \/ (exists a b, dd = [a; b] /\ (isdecimal a = true \/ a = c_ " ")
                              /\ isdecimal b = true).
Proof.
  destruct dd as [|a [|b [|x p]]]; simpl; try discriminate; intro H.
  - left. exists a. split; [reflexivity|].
    apply ascii_digit_decimal. classes. ascii.
  - right. exists a, b. split; [reflexivity|].
    repeat (apply orb_true_iff in H; destruct H as [H | H]);
      apply andb_true_iff in H; destruct H as [Ha Hb].
    + split; [left|]; apply ascii_digit_decimal; classes; ascii.
    + split; [left; apply ascii_digit_decimal; classes; ascii | exact Hb].
    + split; [left|]; apply ascii_digit_decimal; classes; ascii.
    + split; [right; apply N.eqb_eq; exact Ha|].
      apply ascii_digit_decimal; classes; ascii.
Qed.

Lemma month_tok_shape mm :
  month_tok mm = true ->
  forallb ascii_digit mm = true /\ (1 <= List.length mm <= 2)%nat.
Proof.
  destruct mm as [|a [|b [|x p]]]; simpl; try discriminate; intro H;
    (split; [|lia]); rewrite ?andb_true_r.
  - classes. ascii.
  - repeat (apply orb_true_iff in H; destruct H as [H | H]);
      apply andb_true_iff in H; destruct H as [Ha Hb];
      apply andb_true_iff; split; classes; ascii.
Qed.

Lemma dot_not_decimal : isdecimal (c_ ".") = false.
Proof. vm_compute. reflexivity. Qed.

Lemma day_tok_no_dot dd : day_tok dd = true -> ~ In (c_ ".") dd.
Proof.
  intros H Hin. apply day_tok_shape in H.
  destruct H as [(a & -> & Ha) | (a & b & -> & Ha & Hb)]; cbn [In] in Hin.
  - destruct Hin as [-> | []]. rewrite dot_not_decimal in Ha. discriminate.
  - destruct Hin as [-> | [-> | []]].
    + destruct Ha as [Ha | Ha]; [|discriminate Ha].
      rewrite dot_not_decimal in Ha. discriminate.
    + rewrite dot_not_decimal in Hb. discriminate.
Qed.

Lemma month_tok_no_dot mm : month_tok mm = true -> ~ In (c_ ".") mm.
Proof.
  intros H Hin. apply month_tok_shape in H. destruct H as [H _].
  rewrite forallb_forall in H. specialize (H _ Hin).
  apply ascii_digit_decimal in H. rewrite dot_not_decimal in H. discriminate.
Qed.

Lemma year_tok_length yyyy : year_tok yyyy = true -> List.length yyyy = 4%nat.
Proof.
  destruct yyyy as [|a [|b [|x [|y [|z p]]]]]; simpl; try discriminate.
  reflexivity.
Qed.

End DateFields.

Section StrictDate.

Lemma length_app_same {A : Type} (p s1 : list A) :
  List.length p = List.length (p ++ s1) -> s1 = [].
Proof.
  rewrite length_app. destruct s1; [reflexivity | simpl; lia].
Qed.

(** A successful [strptime_dmY] read the whole text as three fields. *)
Lemma strptime_fields (s : str) (d : date) :
  strptime_dmY s = Some d ->
  exists dd mm yyyy,
    s = dd ++ c_ "." :: mm ++ c_ "." :: yyyy
    /\ day_tok dd = true /\ month_tok mm = true /\ year_tok yyyy = true
    /\ date_of_fields dd mm yyyy = Some d.
Proof.
  unfold strptime_dmY.
  destruct (rmatch STRPTIME_PATTERN s) as [found|] eqn:E; [|discriminate].
  apply rmatch_sound in E. destruct E as (p & s1 & c1 & -> & M & ->).
  apply strptime_pattern_shape in M.
  destruct M as (dd & mm & yyyy & -> & Hd & Hm & Hy & ->).
  simpl. unfold whole. simpl.
  destruct (Nat.eqb _ _) eqn:El; [|discriminate].
  apply Nat.eqb_eq, length_app_same in El. subst s1.
  intro H. exists dd, mm, yyyy. rewrite app_nil_r. repeat split; auto.
Qed.

(** On a text made of three fields [strptime_dmY] returns their date. *)
Lemma fields_strptime (dd mm yyyy : str) :
  day_tok dd = true -> month_tok mm = true -> year_tok yyyy = true ->
  strptime_dmY (dd ++ c_ "." :: mm ++ c_ "." :: yyyy)
  = date_of_fields dd mm yyyy.
Proof.
  intros Hd Hm Hy.
  pose proof (shape_strptime_pattern dd mm yyyy [] Hd Hm Hy) as M.
  apply rmatch_complete in M. destruct M as [found E].
  rewrite app_nil_r in E. unfold strptime_dmY. rewrite E.
  apply rmatch_sound in E. destruct E as (p & s1 & c1 & E & M & ->).
  apply strptime_pattern_shape in M.
  destruct M as (dd' & mm' & yyyy' & -> & Hd' & Hm' & Hy' & ->).
  rewrite <- app_assoc in E. simpl in E. rewrite <- app_assoc in E.
  simpl in E.
  apply first_dot_unique in E; try (apply day_tok_no_dot; assumption).
  destruct E as [<- E].
  apply first_dot_unique in E; try (apply month_tok_no_dot; assumption).
  destruct E as [<- E].
  assert (s1 = []).
  { apply year_tok_length in Hy, Hy'.
    apply (f_equal (@List.length cp)) in E. rewrite length_app in E.
    destruct s1; [reflexivity | simpl in E; lia]. }
  subst s1. rewrite app_nil_r in E. subst yyyy'.
  simpl. unfold whole. simpl. rewrite Nat.eqb_refl.
  reflexivity.
Qed.

(** White space is a finite set, and holds no decimal digit. *)
Lemma isspace_cases (c : cp) :
  isspace c = true ->
  In c [ 9; 10; 11; 12; 13; 28; 29; 30; 31; 32; 133; 160; 5760; 8192; 8193;
         8194; 8195; 8196; 8197; 8198; 8199; 8200; 8201; 8202; 8232; 8233;
         8239; 8287; 12288 ]%N.
Proof.
  unfold isspace, in_range. intro H.
  repeat match goal with
         | H : _ || _ = true |- _ => apply orb_true_iff in H; destruct H as [H | H]
         end;
    repeat match goal with
           | H : _ && _ = true |- _ => apply andb_true_iff in H; destruct H
           | H : (_ =? _)%N = true |- _ => apply N.eqb_eq in H
           | H : (_ <=? _)%N = true |- _ => apply N.leb_le in H
           end;
    simpl; lia.
Qed.

Lemma digit_not_space (c : cp) : isdecimal c = true -> isspace c = false.
Proof.
  intro H. destruct (isspace c) eqn:E; [|reflexivity].
  apply isspace_cases in E. simpl in E.
  repeat (destruct E as [<- | E]; [vm_compute in H; discriminate H|]).
  destruct E.
Qed.

Lemma strip_digits (s : str) : forallb isdecimal s = true -> strip s = s.
Proof.
  intro H. apply ends_clean_fix. rewrite forallb_forall in H. split.
  - destruct s as [|x s]; simpl; [exact I|].
    apply digit_not_space, H. left. reflexivity.
  - destruct (rev s) as [|x t] eqn:E; simpl; [exact I|].
    apply digit_not_space, H, in_rev. rewrite E. left. reflexivity.
Qed.

Lemma ascii_digits_decimal (s : str) :
  forallb ascii_digit s = true -> forallb isdecimal s = true.
Proof.
  rewrite !forallb_forall. intros H c Hc. apply ascii_digit_decimal, H, Hc.
Qed.

Lemma valid_date_bounds y m d :
  valid_date y m d = true -> (1 <= m <= 12 /\ 1 <= d <= 31)%Z.
Proof.
  unfold valid_date, days_in_month. intro H.
  repeat (apply andb_true_iff in H; destruct H as [H ?]).
  rewrite ?Z.leb_le in *.
  destruct (m =? 2)%Z; [destruct (is_leap y)|];
    [| | destruct ((m =? 4) || (m =? 6) || (m =? 9) || (m =? 11))%Z]; lia.
Qed.

Lemma day_tok_strict dd :
  day_tok dd = true -> (exists a t, dd = a :: t /\ isdecimal a = true) ->
  forallb isdecimal dd = true /\ (1 <= List.length dd <= 2)%nat.
Proof.
  intros H (a' & t & E & Ha'). apply day_tok_shape in H.
  destruct H as [(a & -> & Ha) | (a & b & -> & _ & Hb)];
    injection E as <- <-; simpl; rewrite Ha', ?Hb; simpl; split; auto; lia.
Qed.

Lemma month_tok_strict mm :
  month_tok mm = true ->
  forallb isdecimal mm = true /\ (1 <= List.length mm <= 2)%nat.
Proof.
  intro H. apply month_tok_shape in H. destruct H as [H Hl].
  split; [apply ascii_digits_decimal, H | exact Hl].
Qed.

Lemma year_tok_strict yyyy :
  year_tok yyyy = true <->
  forallb isdecimal yyyy = true /\ List.length yyyy = 4%nat.
Proof.
  destruct yyyy as [|a [|b [|x [|y [|z p]]]]]; simpl;
    try (split; [discriminate | intros [_ H]; discriminate]).
  rewrite andb_true_r, <- !andb_assoc. tauto.
Qed.

Lemma strict_day_tok dd :
  forallb ascii_digit dd = true -> (1 <= List.length dd <= 2)%nat ->
  (1 <= digits_val 0 dd <= 31)%Z -> day_tok dd = true.
Proof.
  destruct dd as [|a [|b [|x p]]];
    cbn [day_tok forallb digits_val List.length]; try lia; intros H _ Hv;
    rewrite ?andb_true_r in H;
    repeat match type of H with
           | _ && _ = true => apply andb_true_iff in H; destruct H as [H ?]
           end;
    repeat match goal with
           | Hd : ascii_digit ?x = true |- _ =>
             rewrite (ascii_digit_val x Hd) in Hv;
             try rewrite (ascii_digit_decimal x Hd);
             revert Hd
           end; intros;
    classes;
    rewrite ?orb_true_iff, ?andb_true_iff, ?N.leb_le, ?N.eqb_eq; lia.
Qed.

Lemma strict_month_tok mm :
  forallb ascii_digit mm = true -> (1 <= List.length mm <= 2)%nat ->
  (1 <= digits_val 0 mm <= 12)%Z -> month_tok mm = true.
Proof.
  destruct mm as [|a [|b [|x p]]];
    cbn [month_tok forallb digits_val List.length]; try lia; intros H _ Hv;
    rewrite ?andb_true_r in H;
    repeat match type of H with
           | _ && _ = true => apply andb_true_iff in H; destruct H as [H ?]
           end;
    repeat match goal with
           | Hd : ascii_digit ?x = true |- _ =>
             rewrite (ascii_digit_val x Hd) in Hv; revert Hd
           end; intros;
    classes;
    rewrite ?orb_true_iff, ?andb_true_iff, ?N.leb_le, ?N.eqb_eq; lia.
Qed.

(** On a text that starts with a digit, what [strptime_dmY] accepts is
    in the strict format, and it is the date that the fields denote. *)
Lemma strptime_strict (s : str) (d : date) :
  (exists a t, s = a :: t /\ isdecimal a = true) ->
  strptime_dmY s = Some d -> strict_dmY s d.
Proof.
  intros (a & t & Es & Ha) H. apply strptime_fields in H.
  destruct H as (dd & mm & yyyy & E & Hd & Hm & Hy & Hdate).
  assert (Hdd : exists a' t', dd = a' :: t' /\ isdecimal a' = true).
  { destruct dd as [|x dd]; [discriminate Hd|].
    rewrite Es in E. injection E as <- _. eauto. }
  apply (day_tok_strict _ Hd) in Hdd. destruct Hdd as [Hdd Hld].
  apply month_tok_strict in Hm. destruct Hm as [Hmm Hlm].
  apply year_tok_strict in Hy. destruct Hy as [Hyy Hly].
  unfold date_of_fields, int_of_str in Hdate.
  rewrite !strip_digits in Hdate by assumption.
  destruct (valid_date _ _ _) eqn:Hv; [|discriminate].
  injection Hdate as <-.
  exists dd, mm, yyyy. repeat split; auto; lia.
Qed.

(** [strptime_dmY] accepts every date of the strict format that is
    written in the digits of ASCII. *)
Lemma strict_ascii_strptime (s : str) (d : date) :
  dmY_format ascii_digit s d -> strptime_dmY s = Some d.
Proof.
  intros (dd & mm & yyyy & E & Hdd & Hmm & Hyy & Hld & Hlm & Hly & Hv & ->).
  pose proof (valid_date_bounds _ _ _ Hv) as [Hbm Hbd].
  change (u ".") with [c_ "."] in E. simpl in E. rewrite E.
  rewrite fields_strptime.
  - unfold date_of_fields, int_of_str.
    rewrite !strip_digits by (apply ascii_digits_decimal; assumption).
    rewrite Hv. reflexivity.
  - apply strict_day_tok; assumption.
  - apply strict_month_tok; assumption.
  - apply year_tok_strict. split; [apply ascii_digits_decimal|]; assumption.
Qed.

End StrictDate.

Section HeaderDate.

(** The date token of a header starts with a digit. *)
Lemma header_date_digit (line ds obj : str) :
  parse_header line = Some (ds, obj) ->
  exists a t, ds = a :: t /\ isdecimal a = true.
Proof.
  unfold parse_header.
  destruct (rmatch HEADER_PATTERN line) as [m|] eqn:E; [|discriminate].
  simpl. destruct (group m "date") as [ds'|] eqn:Hd; [|discriminate].
  simpl. destruct (group m "object_name"); [|discriminate]. simpl.
  intro H. injection H as <- _.
  apply rmatch_sound in E. destruct E as (p & s1 & c1 & -> & M & ->).
  unfold HEADER_PATTERN in M. cbn [Seqs] in M.
  inversion M as [ | | r1 r2 p1 p2 rest c c' c2 M1 M2 | | | | | | | ]; subst.
  inversion M2 as [ | | r1 r2 p3 p4 rest c c'' c2 M3 M4 | | | | | | | ]; subst.
  inversion M4 as [ | | r1 r2 p5 p6 rest c c3 c2 M5 M6 | | | | | | | ]; subst.
  inversion M5 as [ | | | | | | | g r p' rest' c c4 M7 | | ]; subst.
  assert (Hfree : ~ In "date"%string
            (names (Seq (Star true ws)
                      (Seq (Chr (one (c_ "|")))
                         (Seq (Star true ws)
                            (Seq (LitI (u "Объект:"))
                               (Seq (Star true ws)
                                  (Group "object_name"
                                     (Plus true (Chr any)))))))))).
  { vm_compute. intuition discriminate. }
  simpl in Hd. rewrite (group_frame _ _ _ _ _ "date" M6 Hfree) in Hd.
  simpl in Hd. injection Hd as <-.
  unfold date_token in M7. cbn [Seqs Rep Upto Opt] in M7. unfold digit in M7.
  inversion M7 as [ | | r1 r2 q1 q2 rest c c5 c2 N1 N2 | | | | | | | ]; subst.
  inversion N1 as [ | | r1 r2 q3 q4 rest c c6 c2 N3 N4 | | | | | | | ]; subst.
  inversion N3; subst. simpl. eauto.
Qed.

End HeaderDate.

(** * Blank texts and the object of the header *)

Section BlankText.

Lemma startswith_in (pre s : str) (c : cp) :
  startswith pre s = true -> In c pre -> In c s.
Proof.
  revert s. induction pre as [|a pre IH]; intros [|b s]; simpl; try tauto;
    try discriminate.
  intro H. apply andb_true_iff in H. destruct H as [Hab H].
  apply N.eqb_eq in Hab. subst b.
  intros [<- | Hc]; [left; reflexivity | right; apply IH; assumption].
Qed.

Lemma contains_in (sub s : str) (c : cp) :
  contains sub s = true -> In c sub -> In c s.
Proof.
  induction s as [|x s IH]; simpl; intros H Hc.
  - rewrite orb_false_r in H. destruct sub; [destruct Hc | discriminate].
  - apply orb_true_iff in H. destruct H as [H | H].
    + apply (startswith_in _ _ _ H Hc).
    + right. apply IH; assumption.
Qed.

(** White space has no case. *)
Lemma lower_space (c : cp) (before after : str) :
  isspace c = true ->
  (if (c =? 931)%N
   then [if final_sigma before after then 962 else 963]%N
   else lower_full c) = [c].
Proof.
  intro H. apply isspace_cases in H. simpl in H.
  repeat (destruct H as [<- | H]; [vm_compute; reflexivity|]).
  destruct H.
Qed.

Lemma lower_blank (s : str) :
  (forall c, In c s -> isspace c = true) -> lower s = s.
Proof.
  unfold lower. generalize (@nil cp) as before.
  induction s as [|c t IH]; intros before H; cbn [lower_after]; [reflexivity|].
  rewrite (lower_space c before t (H c (or_introl eq_refl))).
  rewrite IH; [reflexivity|]. intros x Hx. apply H. right. exact Hx.
Qed.

Lemma blank_has_no_phrase (text : str) :
  forallb isspace text = true -> has_inappropriate (lower text) = false.
Proof.
  intro Hb. rewrite forallb_forall in Hb. rewrite (lower_blank _ Hb).
  unfold has_inappropriate.
  destruct (existsb _ WORD_REPLACEMENTS) eqn:E; [|reflexivity].
  apply existsb_exists in E. destruct E as (kv & Hkv & Hc).
  assert (Hkeys : forallb (fun kv : str * str =>
                             match fst kv with
                             | x :: _ => negb (isspace x)
                             | [] => false
                             end) WORD_REPLACEMENTS = true)
    by (vm_compute; reflexivity).
  rewrite forallb_forall in Hkeys. specialize (Hkeys kv Hkv).
  destruct (fst kv) as [|x k]; [discriminate|].
  assert (Hx : In x text).
  { apply (contains_in _ _ _ Hc). left. reflexivity. }
  rewrite (Hb x Hx) in Hkeys. discriminate.
Qed.

Lemma split_on_incl (sep : cp) (s : str) :
  forall l c, In l (split_on sep s) -> In c l -> In c s.
Proof.
  induction s as [|x s IH]; simpl; intros l c.
  - intros [<- | []] [].
  - destruct (x =? sep)%N.
    + intros [<- | Hl]; [intros [] | right; eapply IH; eassumption].
    + destruct (split_on sep s) as [|w ws] eqn:E.
      * intros [<- | []] [<- | []]. left. reflexivity.
      * intros [<- | Hl].
        -- intros [<- | Hc]; [left; reflexivity|].
           right. apply (IH w c); [left; reflexivity | exact Hc].
        -- intro Hc. right. apply (IH l c); [right; exact Hl | exact Hc].
Qed.

Lemma lstrip_all (p : cp -> bool) (s : str) :
  (forall c, In c s -> p c = true) -> lstrip_by p s = [].
Proof.
  induction s as [|x s IH]; simpl; [reflexivity|]. intro H.
  rewrite (H x (or_introl eq_refl)). apply IH. intros c Hc. apply H. right.
  exact Hc.
Qed.


Lemma strip_blank (s : str) :
  (forall c, In c s -> isspace c = true) -> strip s = [].
Proof.
  intro H. unfold strip, strip_by, rstrip_by.
  rewrite (lstrip_all _ _ H). reflexivity.
Qed.

Lemma blank_has_no_lines (text : str) :
  forallb isspace text = true -> nonblank_lines text = [].
Proof.
  intro Hb. rewrite forallb_forall in Hb. unfold nonblank_lines.
  assert (H : forall l, In l (split_on nl text) -> strip l = []).
  { intros l Hl. apply strip_blank. intros c Hc. apply Hb.
    eapply split_on_incl; eassumption. }
  induction (split_on nl text) as [|l ls IH]; simpl; [reflexivity|].
  rewrite (H l (or_introl eq_refl)). apply IH.
  intros l' Hl'. apply H. right. exact Hl'.
Qed.

End BlankText.

Section HeaderObject.

(** A greedy repetition of a character class takes every leading
    character of the class when the continuation accepts what is left. *)
Lemma star_greedy_class (p : cp -> bool) k res :
  forall fuel s c,
    (List.length s <= fuel)%nat ->
    k (lstrip_by p s) c = Some res ->
    star_loop (exec (Chr p)) true k fuel s c = Some res.
Proof.
  set (body := exec (Chr p)).
  induction fuel as [|fuel IH]; intros s c Hf Hk.
  - destruct s; [exact Hk | simpl in Hf; lia].
  - cbn [star_loop]. unfold body at 1. cbn [exec].
    destruct s as [|x s']; [exact Hk|].
    cbn [lstrip_by] in Hk. destruct (p x) eqn:Hx; [|exact Hk].
    assert (Hlt : (List.length s' <? List.length (x :: s'))%nat = true).
    { apply Nat.ltb_lt. simpl. lia. }
    rewrite Hlt, (IH s' c); [reflexivity | simpl in Hf; lia | exact Hk].
Qed.

Lemma lstrip_any_no_nl (s : str) : ~ In nl s -> lstrip_by any s = [].
Proof.
  intro H. apply lstrip_all. intros c Hc. unfold any.
  destruct (c =? nl)%N eqn:E; [|reflexivity].
  apply N.eqb_eq in E. subst c. contradiction.
Qed.

(** A match of a sequence runs its second part on what the first part
    left. *)
Lemma exec_seq_rest (r1 r2 : regex) s c k res :
  exec (Seq r1 r2) s c k = Some res ->
  exists p s1 c1, s = p ++ s1 /\ exec r2 s1 c1 k = Some res.
Proof.
  intro H. cbn [exec] in H. apply exec_sound in H.
  destruct H as (p & s1 & c1 & -> & _ & H). eauto.
Qed.

Lemma exec_group_plus_class (g : string) (p : cp -> bool) s c k :
  exec (Group g (Plus true (Chr p))) s c k
  = match s with
    | x :: s' =>
      if p x then
        star_loop (exec (Chr p)) true
          (fun s1 c1 =>
             k s1 ((g, firstn (List.length s - List.length s1) s) :: c1))
          (List.length s') s' c
      else None
    | [] => None
    end.
Proof. destruct s; reflexivity. Qed.

(** On a line without a line break the object group of the header is
    the rest of the line, and it is not empty. *)
Lemma header_object_suffix (line : str) (m : caps) :
  rmatch HEADER_PATTERN line = Some m -> ~ In nl line ->
  exists pre x obj,
    line = pre ++ x :: obj /\ group m "object_name" = Some (x :: obj).
Proof.
  unfold rmatch, HEADER_PATTERN. cbn [Seqs]. intros H Hnl.
  remember (fun (s1 : str) (c : caps) =>
              Some (("0"%string,
                     firstn (List.length line - List.length s1) line) :: c))
    as kf eqn:Ekf.
  assert (Hrest : exists pre s8 c8,
             line = pre ++ s8
             /\ exec (Group "object_name" (Plus true (Chr any))) s8 c8 kf
                = Some m).
  { clear Ekf Hnl.
    do 8 (apply exec_seq_rest in H;
          let p := fresh "p" in let s := fresh "s" in let c := fresh "c" in
          destruct H as (p & s & c & -> & H)).
    eexists _, _, _. split; [|exact H].
    rewrite !app_assoc. reflexivity. }
  clear H. destruct Hrest as (pre & s8 & c8 & -> & H).
  rewrite exec_group_plus_class in H.
  destruct s8 as [|x s']; [discriminate|].
  destruct (any x); [|discriminate].
  assert (Hs' : lstrip_by any s' = []).
  { apply lstrip_any_no_nl. intro Hc. apply Hnl.
    apply in_or_app. right. right. exact Hc. }
  subst kf.
  erewrite star_greedy_class in H; [| reflexivity | rewrite Hs'; reflexivity].
  injection H as <-.
  exists pre, x, s'. split; [reflexivity|].
  cbn [group]. simpl String.eqb. cbv iota.
  rewrite firstn_all. reflexivity.
Qed.

Lemma split_on_no_sep (sep : cp) (s : str) :
  forall l, In l (split_on sep s) -> ~ In sep l.
Proof.
  induction s as [|x s IH]; simpl; intro l.
  - intros [<- | []] [].
  - destruct (x =? sep)%N eqn:Ex.
    + intros [<- | Hl]; [intros [] | apply IH, Hl].
    + destruct (split_on sep s) as [|w ws] eqn:E.
      * intros [<- | []] [-> | []]. rewrite N.eqb_refl in Ex. discriminate.
      * intros [<- | Hl].
        -- intros [-> | Hc]; [rewrite N.eqb_refl in Ex; discriminate|].
           apply (IH w); [left; reflexivity | exact Hc].
        -- apply IH. right. exact Hl.
Qed.

(** The lines of an act: stripped, not empty, without a line break. *)
Lemma nonblank_lines_in (text line : str) :
  In line (nonblank_lines text) ->
  line <> [] /\ ends_clean isspace line /\ ~ In nl line.
Proof.
  unfold nonblank_lines. intro H. apply filter_In in H.
  destruct H as [H Hne]. apply in_map_iff in H.
  destruct H as (l & <- & Hl). split; [|split].
  - destruct (strip l); [discriminate | discriminate].
  - apply strip_by_ends_clean.
  - intro Hc. apply strip_by_incl in Hc.
    apply (split_on_no_sep _ _ _ Hl Hc).
Qed.

Lemma strip_keeps_last (pre : str) (x : cp) (obj : str) :
  head_ok isspace (rev (pre ++ x :: obj)) -> strip (x :: obj) <> [].
Proof.
  intro H. rewrite rev_app_distr in H.
  destruct (rev (x :: obj)) as [|y t] eqn:E.
  { apply (f_equal (@List.length cp)) in E. rewrite length_rev in E.
    discriminate. }
  simpl in H.
  assert (Eo : x :: obj = rev t ++ [y]).
  { rewrite <- (rev_involutive (x :: obj)), E. reflexivity. }
  rewrite Eo. unfold strip, strip_by, rstrip_by.
  destruct (lstrip_keeps_last isspace (rev t) y H) as [w ->].
  rewrite rev_app_distr. simpl. rewrite H.
  intro Hn. apply (f_equal (@List.length cp)) in Hn.
  rewrite length_rev in Hn. discriminate.
Qed.

Lemma clean_text_nonempty (text : str) : text <> [] -> clean_text text <> [].
Proof.
  destruct text as [|c t]; [congruence|]. intros _. unfold clean_text.
  destruct (has_inappropriate _); [|discriminate].
  intro H. apply app_eq_nil in H. destruct H as [_ H]. discriminate H.
Qed.

Lemma parse_header_object (line ds obj : str) :
  ends_clean isspace line -> ~ In nl line ->
  parse_header line = Some (ds, obj) -> obj <> [].
Proof.
  intros Hclean Hnl. unfold parse_header.
  destruct (rmatch HEADER_PATTERN line) as [m|] eqn:E; [|discriminate].
  simpl. destruct (group m "date") as [ds'|]; [|discriminate]. simpl.
  destruct (header_object_suffix _ _ E Hnl) as (pre & x & o & -> & ->).
  simpl. intro H. injection H as _ <-.
  apply clean_text_nonempty. apply (strip_keeps_last pre). apply Hclean.
Qed.

End HeaderObject.


(** * The properties of the specification *)

(** ** Round trip through the canonical text *)

(** C1. The round trip at the scenario of the specification. The act
    parses; [format_act_as_text] writes the price 1500 as "1 500₽", with
    the thousands separator of [_format_number]; [ITEM_PATTERN] reads no
    blank inside a number, so the rendered line of the first item yields
    no item and the record read back holds the second item only. An act
    whose only item costs 1500 does not read back at all. *)
Theorem round_trip_loses_grouped_price :
  parse_act scenario_text = Ok scenario_act
  /\ format_act_as_text scenario_act = scenario_canonical
  /\ _parse_item (u "Услуги по уборке 1 кв.м. × 1 500₽") = None
  /\ parse_act (format_act_as_text scenario_act)
     = Ok (mkAct (mkdate 2024 5 12) (u "Офис на Невском проспекте")
             [ mkItem (u "Мытье окон") (S754_finite false (3 * 2 ^ 51) (-51)) (u "шт.")
                   (S754_finite false (500 * 2 ^ 44) (-44)) ])
  /\ parse_act (format_act_as_text scenario_act) <> Ok scenario_act
  /\ parse_act single_item_text = Ok single_item_act
  /\ parse_act (format_act_as_text single_item_act) = Raise NoItems.
Proof.
  do 4 (split; [by_eval|]). split; [|split; by_eval].
  vm_compute. discriminate.
Qed.

(** ** The sanitizer *)

(** C2, counterexample. On "шлюх" the first pass writes "Девушки" and the
    annotation; the replacement holds the phrase "девушк", so the second
    pass substitutes again and appends the annotation a second time. *)
Lemma sanitizer_not_idempotent :
  clean_text (u "шлюх") = u "Девушки. (названия скорректированы)"
  /\ clean_text (clean_text (u "шлюх"))
     = u "ассистенти. (названия скорректированы). (названия скорректированы)"
  /\ clean_text (clean_text (u "шлюх")) <> clean_text (u "шлюх").
Proof.
  do 2 (split; [by_eval|]).
  vm_compute. discriminate.
Qed.

(** C2, amended. A second pass of the sanitizer changes nothing whenever
    the text the first pass returned holds none of the mapped phrases (in
    any letter case): then nothing is substituted again and the annotation
    is not appended again. *)
Theorem sanitizer_idempotent_on_clean_output (x : str) :
  has_inappropriate (lower (clean_text x)) = false ->
  clean_text (clean_text x) = clean_text x.
Proof.
  intro H. unfold clean_text at 1.
  destruct (clean_text x) as [|c t]; [reflexivity|].
  rewrite H. reflexivity.
Qed.

(** The theorem at "Оплата за ночь": the first pass rewrites the text,
    the second leaves it. *)
Lemma sanitizer_idempotent_witness :
  clean_text (u "Оплата за ночь") = u "Оплата за смену. (названия скорректированы)"
  /\ clean_text (clean_text (u "Оплата за ночь")) = clean_text (u "Оплата за ночь").
Proof.
  split; [by_eval|].
  apply (sanitizer_idempotent_on_clean_output (u "Оплата за ночь")).
  by_eval.
Defined.

(** ** The concrete scenario *)

(** C3. The concrete scenario: [parse_act] on the three-line act returns
    the date 2024-05-12, the object "Офис на Невском проспекте", the two
    items ("Услуги по уборке", 1, "кв.м.", 1500) and ("Мытье окон", 3,
    "шт.", 500) in this order, and the total of the record is 3000.0,
    the binary64 number 3000 * 2^41 * 2^-41. *)
Theorem scenario_parses :
  parse_act scenario_text
  = Ok (mkAct (mkdate 2024 5 12) (u "Офис на Невском проспекте")
          [ mkItem (u "Услуги по уборке")
              (S754_finite false (2 ^ 52) (-52)) (u "кв.м.")
              (S754_finite false (1500 * 2 ^ 42) (-42));
            mkItem (u "Мытье окон")
              (S754_finite false (3 * 2 ^ 51) (-51)) (u "шт.")
              (S754_finite false (500 * 2 ^ 44) (-44)) ])
  /\ total
       (mkAct (mkdate 2024 5 12) (u "Офис на Невском проспекте")
          [ mkItem (u "Услуги по уборке")
              (S754_finite false (2 ^ 52) (-52)) (u "кв.м.")
              (S754_finite false (1500 * 2 ^ 42) (-42));
            mkItem (u "Мытье окон")
              (S754_finite false (3 * 2 ^ 51) (-51)) (u "шт.")
              (S754_finite false (500 * 2 ^ 44) (-44)) ])
     = S754_finite false (3000 * 2 ^ 41) (-41).
Proof.
  conjuncts; by_eval.
Qed.

(** ** The night multiplier *)

(** C4. The line "4 камеры по 1000, 3 ночи" passes the sanitizer
    unchanged and is of the quantity-first form with the count 3 before
    "ночи". The branch that multiplies the price, [nights_item], would
    return the price 3000; it stands behind a branch with the same
    pattern, so it is never taken and [_parse_item] returns the base price
    1000. For every line [_parse_item] is the cascade without that
    branch. *)
Theorem night_multiplier_never_applied :
  clean_text nights_text = nights_text
  /\ (exists m, rmatch COUNT_FIRST_PATTERN (normalize nights_line) = Some m
        /\ nights_item (normalize nights_line) m
           = Some (mkItem (u "камеры") (S754_finite false (4 * 2 ^ 50) (-50)) (u "шт.")
                       (S754_finite false (3000 * 2 ^ 41) (-41))))
  /\ _parse_item nights_line
     = Some (mkItem (u "камеры") (S754_finite false (4 * 2 ^ 50) (-50)) (u "шт.")
                 (S754_finite false (1000 * 2 ^ 43) (-43)))
  /\ parse_act nights_text
     = Ok (mkAct (mkdate 2024 5 12) (u "Отель")
             [ mkItem (u "камеры") (S754_finite false (4 * 2 ^ 50) (-50)) (u "шт.")
                   (S754_finite false (1000 * 2 ^ 43) (-43)) ])
  /\ (forall line,
        _parse_item line
        = match rmatch ITEM_PATTERN (normalize line) with
          | Some m => canonical_item m
          | None =>
            match rmatch COUNT_FIRST_PATTERN (normalize line) with
            | Some m => count_first_item m
            | None =>
              match rmatch MODULE_PATTERN (normalize line) with
              | Some m => module_item m
              | None => None
              end
            end
          end).
Proof.
  split; [by_eval|].
  split.
  { destruct (rmatch COUNT_FIRST_PATTERN (normalize nights_line))
      as [m|] eqn:E; [|vm_compute in E; discriminate].
    exists m. split; [reflexivity|].
    vm_compute in E. injection E as <-. by_eval. }
  split; [by_eval|].
  split; [by_eval|].
  intro line. unfold _parse_item.
  destruct (rmatch ITEM_PATTERN (normalize line)); [reflexivity|].
  destruct (rmatch COUNT_FIRST_PATTERN (normalize line)); reflexivity.
Qed.

(** ** Deduplication keeps the first occurrence *)

(** C5. Two lines with the same name, the same unit and the same price,
    a number of 310 digits that [float] reads as infinity, and the
    quantities 1 and 2: the difference of the two prices is not a number,
    so [__eq__] answers False, the second item is no member of the set
    that holds the first, and [parse_act] keeps both items, where one,
    the first, was to be kept. *)
Theorem dedup_keeps_both_infinite_prices :
  parse_act overflow_text
  = Ok (mkAct (mkdate 2024 5 12) (u "Склад")
          [ mkItem (u "Товар") (S754_finite false (2 ^ 52) (-52)) (u "шт.")
              (S754_infinity false);
            mkItem (u "Товар") (S754_finite false (2 * 2 ^ 51) (-51)) (u "шт.")
              (S754_infinity false) ])
  /\ float_of_str huge_price = Some (S754_infinity false)
  /\ fsub (S754_infinity false) (S754_infinity false) = S754_nan
  /\ item_eq (mkItem (u "Товар") (S754_finite false (2 ^ 52) (-52)) (u "шт.")
                 (S754_infinity false))
             (mkItem (u "Товар") (S754_finite false (2 * 2 ^ 51) (-51)) (u "шт.")
                 (S754_infinity false))
     = false.
Proof. conjuncts; by_eval. Qed.

(** ** The date of the header is strict *)

(** The header template admits a date with slashes, a year of two or
    three digits and a day that the month does not have; each of them
    fails with the error that names the date token. *)
Lemma lenient_dates_rejected :
  parse_header (u "#АКТ 12/05/2024 | Объект: Склад")
  = Some (u "12/05/2024", u "Склад")
  /\ parse_act slash_date_text = Raise (BadDate (u "12/05/2024"))
  /\ parse_act short_year_text = Raise (BadDate (u "12.05.24"))
  /\ parse_act three_digit_year_text = Raise (BadDate (u "12.05.202"))
  /\ parse_act no_such_day_text = Raise (BadDate (u "31.02.2024"))
  /\ kind_of (BadDate (u "12/05/2024")) = FormatError.
Proof. conjuncts; by_eval. Qed.

(** C6, counterexample. Decimal digits of other scripts are digits for
    the header template and for [strptime], but the day and the month of
    [strptime] begin with a digit of ASCII. The token "12.05.٢٠٢٤",
    with its year in Arabic-Indic digits, is accepted as 12 May 2024,
    and it is no date in the digits 0 to 9; the token "٣١.٠٥.٢٠٢٤" is
    a day.month.year date in decimal digits with a year of four digits
    and a day of the calendar, and it is refused. So the accepted tokens
    are the strict dates neither when a digit is one of 0 to 9 nor when
    it is any decimal digit. *)
Lemma strict_date_not_exact :
  parse_act (join [nl] [ u "#АКТ 12.05.٢٠٢٤ | Объект: Склад";
                         u "Товар 1 шт × 100" ])
  = Ok (mkAct (mkdate 2024 5 12) (u "Склад")
          [ mkItem (u "Товар")
              (S754_finite false (2 ^ 52) (-52)) (u "шт.")
              (S754_finite false (100 * 2 ^ 46) (-46)) ])
  /\ (forall d, ~ dmY_format ascii_digit (u "12.05.٢٠٢٤") d)
  /\ parse_act (join [nl] [ u "#АКТ ٣١.٠٥.٢٠٢٤ | Объект: Склад";
                            u "Товар 1 шт × 100" ])
     = Raise (BadDate (u "٣١.٠٥.٢٠٢٤"))
  /\ strict_dmY (u "٣١.٠٥.٢٠٢٤") (mkdate 2024 5 31).
Proof.
  split; [by_eval|].
  split.
  { intros d (dd & mm & yyyy & E & _ & _ & Hy & Ld & Lm & Ly & _).
    destruct dd as [|d1 [|d2 [|d3 dd]]]; simpl in Ld; try lia;
      destruct mm as [|m1 [|m2 [|m3 mm]]]; simpl in Lm; try lia;
      destruct yyyy as [|y1 [|y2 [|y3 [|y4 [|y5 yyyy]]]]]; try discriminate Ly;
      vm_compute in E; try discriminate E;
      injection E as <- <- <- <- <- <- <- <-;
      vm_compute in Hy; discriminate Hy. }
  split; [by_eval|].
  exists (u "٣١"), (u "٠٥"), (u "٢٠٢٤").
  conjuncts; try by_eval; simpl; lia.
Qed.

(** C6, amended. Let the first line of an act match the header template,
    with the date token [ds]. The date is parsed strictly: a date that
    [strptime] accepts for [ds] is a day.month.year date with a day and a
    month of one or two digits, a year of four digits, dots between them
    and a day of the calendar, a digit being a decimal digit as the
    template and [strptime] read it; [parse_act] then goes on with that
    date. Every such date written in the digits 0 to 9 is accepted. When
    [ds] is not accepted, and so whenever it is not of the strict format,
    [parse_act] fails with the error [BadDate ds], a [FormatError] that
    carries the token; it fails with this error in no other case. *)
Theorem header_date_strict :
  forall text first rest ds obj,
    nonblank_lines (clean_text text) = first :: rest ->
    parse_header first = Some (ds, obj) ->
    (forall d, strptime_dmY ds = Some d -> strict_dmY ds d)
    /\ (forall d, dmY_format ascii_digit ds d -> strptime_dmY ds = Some d)
    /\ (forall d, strptime_dmY ds = Some d ->
          parse_act text
          = match dedupe (collect_items rest) with
            | [] => Raise NoItems
            | its => Ok (mkAct d obj its)
            end)
    /\ (parse_act text = Raise (BadDate ds) <-> strptime_dmY ds = None)
    /\ ((forall d, ~ strict_dmY ds d) -> parse_act text = Raise (BadDate ds))
    /\ kind_of (BadDate ds) = FormatError.
Proof.
  intros text first rest ds obj Hl Hh.
  pose proof (header_date_digit first ds obj Hh) as Hdigit.
  assert (Hstrict : forall d, strptime_dmY ds = Some d -> strict_dmY ds d).
  { intro d. apply strptime_strict, Hdigit. }
  split; [exact Hstrict|].
  split; [intro d; apply strict_ascii_strptime|].
  unfold parse_act. rewrite Hl, Hh.
  split; [|split; [|split; [|reflexivity]]].
  - intros d Hd. rewrite Hd. reflexivity.
  - destruct (strptime_dmY ds) as [d|] eqn:Hd.
    + split; [|discriminate].
      destruct (dedupe (collect_items rest)); discriminate.
    + split; reflexivity.
  - intro Hnone. destruct (strptime_dmY ds) as [d|] eqn:Hd; [|reflexivity].
    exfalso. apply (Hnone d), Hstrict. reflexivity.
Qed.

(** The theorem at a header with the date 12/05/2024, which is refused,
    and at the header of the scenario, whose date is of the strict format
    in the digits 0 to 9 and is accepted. *)
Lemma header_date_strict_witness :
  parse_act slash_date_text = Raise (BadDate (u "12/05/2024"))
  /\ strict_dmY (u "12.05.2024") (mkdate 2024 5 12)
  /\ parse_act scenario_text
     = match dedupe (collect_items
                       [ u "Услуги по уборке 1 кв.м. × 1500";
                         u "Мытье окон 3 шт. × 500" ]) with
       | [] => Raise NoItems
       | its => Ok (mkAct (mkdate 2024 5 12)
                      (u "Офис на Невском проспекте") its)
       end.
Proof.
  split.
  - destruct (header_date_strict slash_date_text
                (u "#АКТ 12/05/2024 | Объект: Склад")
                [u "Товар 1 шт × 100"] (u "12/05/2024") (u "Склад"))
      as (_ & _ & _ & Hbad & _); [by_eval | by_eval |].
    apply Hbad. by_eval.
  - destruct (header_date_strict scenario_text
                (u "#АКТ 12.05.2024 | Объект: Офис на Невском проспекте")
                [ u "Услуги по уборке 1 кв.м. × 1500";
                  u "Мытье окон 3 шт. × 500" ]
                (u "12.05.2024") (u "Офис на Невском проспекте"))
      as (Hstrict & Hascii & Hok & _); [by_eval | by_eval |].
    assert (Hd : strptime_dmY (u "12.05.2024") = Some (mkdate 2024 5 12)).
    { apply Hascii. exists (u "12"), (u "05"), (u "2024").
      conjuncts; try by_eval; simpl; lia. }
    split; [apply Hstrict, Hd | apply Hok, Hd].
Defined.

(** ** Empty acts *)

(** C7. [parse_act] fails with an error of the kind [EmptyActError]
    exactly in two cases: the sanitized text has no non-blank line (the
    error is [EmptyAct]), or the header and its date parse and no
    remaining line yields an item (the error is [NoItems]); no line
    yields an item exactly when every line is blank, a comment or without
    a match. When the header and its date parse and some line yields an
    item, [parse_act] returns a record, and the record has items. *)
Theorem empty_act_rejected :
  forall text,
    (nonblank_lines (clean_text text) = [] -> parse_act text = Raise EmptyAct)
    /\ (forall first rest ds obj d,
          nonblank_lines (clean_text text) = first :: rest ->
          parse_header first = Some (ds, obj) ->
          strptime_dmY ds = Some d ->
          (collect_items rest = [] <->
           Forall (fun line => is_comment line = true
                               \/ _parse_item line = None) rest)
          /\ (collect_items rest = [] -> parse_act text = Raise NoItems)
          /\ (collect_items rest <> [] ->
              exists a, parse_act text = Ok a /\ items a <> []))
    /\ ((exists e, parse_act text = Raise e /\ kind_of e = EmptyActError)
        <-> (nonblank_lines (clean_text text) = []
             \/ exists first rest ds obj d,
                  nonblank_lines (clean_text text) = first :: rest
                  /\ parse_header first = Some (ds, obj)
                  /\ strptime_dmY ds = Some d
                  /\ collect_items rest = [])).
Proof.
  intro text. unfold parse_act.
  destruct (nonblank_lines (clean_text text)) as [|first rest] eqn:El.
  - split; [reflexivity|]. split; [discriminate|].
    split; [auto|]. intros _. exists EmptyAct. auto.
  - split; [discriminate|]. split.
    + intros f r ds obj d E Hh Hd. injection E as <- <-.
      rewrite Hh, Hd. split; [apply collect_items_nil|]. split.
      * intros ->. reflexivity.
      * intro Hne. apply dedupe_nonempty in Hne.
        destruct (dedupe (collect_items rest)) as [|i its] eqn:Ed;
          [congruence|].
        eexists. split; [reflexivity|]. simpl. discriminate.
    + destruct (parse_header first) as [[ds obj]|] eqn:Hh.
      * destruct (strptime_dmY ds) as [d|] eqn:Hd.
        -- destruct (collect_items rest) as [|i its] eqn:Ec.
           ++ split; [|intros _; exists NoItems; auto].
              intros _. right. exists first, rest, ds, obj, d. auto.
           ++ unfold dedupe. simpl. split.
              ** intros (e & He & _). discriminate.
              ** intros [H | (f & r & ds' & obj' & d' & E & Hh' & Hd' & Hc)];
                   [discriminate|].
                 injection E as <- <-. rewrite Hh in Hh'.
                 injection Hh' as <- <-. congruence.
        -- split.
           ++ intros (e & He & Hk). injection He as <-. discriminate.
           ++ intros [H | (f & r & ds' & obj' & d' & E & Hh' & Hd' & Hc)];
                [discriminate|].
              injection E as <- <-. rewrite Hh in Hh'.
              injection Hh' as <- <-. congruence.
      * split.
        -- intros (e & He & Hk). injection He as <-. discriminate.
        -- intros [H | (f & r & ds' & obj' & d' & E & Hh' & Hd' & Hc)];
             [discriminate|].
           injection E as <- <-. congruence.
Qed.

(** The theorem at a blank text and at an act whose lines after the
    header are a comment and a line without a match. *)
Lemma empty_act_witness :
  parse_act (u "  ") = Raise EmptyAct
  /\ parse_act header_only_text = Raise NoItems.
Proof.
  split.
  - apply (proj1 (empty_act_rejected (u "  "))). by_eval.
  - destruct (proj1 (proj2 (empty_act_rejected header_only_text))
                (u "#АКТ 12.05.2024 | Объект: Склад")
                [ u "# позиции будут позже"; u "просто текст без цифр" ]
                (u "12.05.2024") (u "Склад") (mkdate 2024 5 12))
      as (_ & H & _); [by_eval | by_eval | by_eval |].
    apply H. by_eval.
Defined.

(** ** The invariant of items *)

(** C8, counterexample. The line "3 ,по 100" is of the quantity-first
    form; its name group is ",", which [strip(' ,')] empties: the item has
    the empty name, and [parse_act] returns it in a record. *)
Lemma count_first_empty_name :
  _parse_item (u "3 ,по 100")
  = Some (mkItem [] (S754_finite false (3 * 2 ^ 51) (-51)) (u "шт.")
              (S754_finite false (100 * 2 ^ 46) (-46)))
  /\ parse_act (join [nl] [u "#АКТ 12.05.2024 | Объект: Склад"; u "3 ,по 100"])
     = Ok (mkAct (mkdate 2024 5 12) (u "Склад")
             [mkItem [] (S754_finite false (3 * 2 ^ 51) (-51)) (u "шт.")
                  (S754_finite false (100 * 2 ^ 46) (-46))]).
Proof. split; by_eval. Qed.

(** C8, amended. Every item of [_parse_item], through any pattern of the
    cascade, has a quantity and a price greater than 0 and a name without
    whitespace at its ends; the name is not empty when the item comes
    from the standard pattern or from the module pattern (the
    quantity-first pattern can leave it empty). Every item of a record
    that [parse_act] returns is an item of [_parse_item], so it has the
    same properties. *)
Theorem parsed_items_valid :
  (forall line it,
      _parse_item line = Some it ->
      flt fzero (quantity it) = true
      /\ flt fzero (price it) = true
      /\ strip (name it) = name it
      /\ (rmatch ITEM_PATTERN (normalize line) <> None
          \/ rmatch COUNT_FIRST_PATTERN (normalize line) = None ->
          name it <> []))
  /\ (forall text a it,
        parse_act text = Ok a -> In it (items a) ->
        (exists line, _parse_item line = Some it)
        /\ flt fzero (quantity it) = true
        /\ flt fzero (price it) = true
        /\ strip (name it) = name it).
Proof.
  split.
  - exact parse_item_valid.
  - intros text a it Ha Hin.
    destruct (parse_act_items text a it Ha Hin) as (line & Hp).
    split; [exists line; exact Hp|].
    destruct (parse_item_valid line it Hp) as (Hq & Hpr & Hn & _). auto.
Qed.

(** ** The inline multiplier *)

(** C9. The inline multiplier: on "Item 3 x 100 × 50" the canonical
    pattern takes "3 x 100" as the quantity token and the later "×" as the
    separator before the price; the item has the name "Item", the quantity
    300.0, the product of 3 and 100, and the price 50. As binary64 numbers
    300 is 300 * 2^44 * 2^-44, 50 is 50 * 2^47 * 2^-47, 3 is
    3 * 2^51 * 2^-51 and 100 is 100 * 2^46 * 2^-46. *)
Theorem inline_multiplier :
  (exists m, rmatch ITEM_PATTERN (normalize (u "Item 3 x 100 × 50")) = Some m
             /\ group m "name" = Some (u "Item")
             /\ group m "quantity" = Some (u "3 x 100")
             /\ group m "price" = Some (u "50"))
  /\ _parse_item (u "Item 3 x 100 × 50")
     = Some (mkItem (u "Item")
               (S754_finite false (300 * 2 ^ 44) (-44)) (u "шт.")
               (S754_finite false (50 * 2 ^ 47) (-47)))
  /\ fmul (S754_finite false (3 * 2 ^ 51) (-51))
          (S754_finite false (100 * 2 ^ 46) (-46))
     = S754_finite false (300 * 2 ^ 44) (-44).
Proof.
  split.
  - destruct (rmatch ITEM_PATTERN (normalize (u "Item 3 x 100 × 50")))
      as [m|] eqn:E; [|vm_compute in E; discriminate].
    exists m. split; [reflexivity|].
    vm_compute in E. injection E as <-. conjuncts; by_eval.
  - conjuncts; by_eval.
Qed.

(** ** Hash and equality of items *)

(** C10. The items of "Товар 1 шт × 1.004" and "Товар 2 шт × 1.006" are
    equal by [ActItem.__eq__] (same name and unit, prices 0.002 apart),
    their hashes differ (the prices round to 1.0 and to 1.01), and
    [parse_act] keeps both. In general an item is dropped exactly when the
    set of kept items holds one with the same hash that compares equal to
    it. *)
Theorem dedup_misses_tolerance_equal_items :
  item_eq item_1004 item_1006 = true
  /\ hash_eqb item_1004 item_1006 = false
  /\ round2 (price item_1004) = S754_finite false (2 ^ 52) (-52)
  /\ round2 (price item_1006) = S754_finite false 4548635623644201 (-52)
  /\ parse_act tolerance_text
     = Ok (mkAct (mkdate 2024 5 12) (u "Склад") [item_1004; item_1006])
  /\ (forall (l : list ActItem) (x : ActItem),
        dedupe (l ++ [x])
        = if existsb (fun y => hash_eqb y x && item_eq y x) (dedupe l)
          then dedupe l
          else dedupe l ++ [x]).
Proof.
  do 5 (split; [by_eval|]).
  intros l x. apply dedupe_snoc.
Qed.

(** * Further properties *)

(** X1. The quantity-first scenario of the specification: the line
    "3 камеры по 2000₽" parses to the quantity 3, the name "камеры", the
    default unit and the price 2000. As binary64 numbers 3 is
    3 * 2^51 * 2^-51 and 2000 is 2000 * 2^42 * 2^-42. *)
Theorem quantity_first_scenario :
  rmatch ITEM_PATTERN (normalize (u "3 камеры по 2000₽")) = None
  /\ _parse_item (u "3 камеры по 2000₽")
     = Some (mkItem (u "камеры")
               (S754_finite false (3 * 2 ^ 51) (-51)) (u "шт.")
               (S754_finite false (2000 * 2 ^ 42) (-42))).
Proof. conjuncts; by_eval. Qed.

(** X2. A record that [parse_act] returns has at least one item, and its
    items hold no duplicate that the deduplication would drop:
    deduplicated again they are the same list. *)
Theorem record_has_items (text : str) (a : ActData) :
  parse_act text = Ok a ->
  items a <> [] /\ dedupe (items a) = items a.
Proof.
  unfold parse_act.
  destruct (nonblank_lines (clean_text text)) as [|first rest]; [discriminate|].
  destruct (parse_header first) as [[ds obj]|]; [|discriminate].
  destruct (strptime_dmY ds) as [d|]; [|discriminate].
  destruct (dedupe (collect_items rest)) as [|i its] eqn:E; [discriminate|].
  intro H. injection H as <-. simpl. split; [discriminate|].
  rewrite <- E. apply dedupe_from_idem.
Qed.

(** The theorem at the scenario of the specification. *)
Lemma record_has_items_witness :
  items scenario_act <> [] /\ dedupe (items scenario_act) = items scenario_act.
Proof.
  apply (record_has_items scenario_text scenario_act). by_eval.
Defined.

(** X3. Let the item lines of an act parse to a list in which an item
    [a] is followed, not necessarily at once, by an item [b] with the
    same name and unit (without regard to case) and the same finite
    price, and let the set of the items kept before [a] hold no item
    equal to [a]. Then [parse_act] returns a record in which [a] stands
    right after the kept items that preceded it; every item kept after
    [a] comes from the lines between and after the two; [b] is not kept
    again, and no other kept item has the name, unit and price of
    [a]. *)
Theorem dedup_keeps_first_occurrence :
  forall text first rest ds obj d l1 a l2 b l3,
    nonblank_lines (clean_text text) = first :: rest ->
    parse_header first = Some (ds, obj) ->
    strptime_dmY ds = Some d ->
    collect_items rest = l1 ++ a :: l2 ++ b :: l3 ->
    same_identity a b ->
    is_finite (price a) = true ->
    in_seen a (dedupe l1) = false ->
    exists r,
      parse_act text = Ok (mkAct d obj (dedupe l1 ++ a :: r))
      /\ (forall c, In c r -> In c (l2 ++ l3))
      /\ ~ In b (dedupe l1 ++ r)
      /\ (forall c, In c (dedupe l1 ++ r) -> ~ same_identity a c).
Proof.
  intros text first rest ds obj d l1 a l2 b l3 Hl Hh Hd Hc Hab Hfin Hfirst.
  destruct (dedupe_keeps_first l1 l2 l3 a b Hfirst Hab Hfin)
    as (r & Hr & Hsub & Hnot).
  exists r. split; [|split; [exact Hsub | split; [|exact Hnot]]].
  - unfold parse_act. rewrite Hl, Hh, Hd, Hc, Hr.
    destruct (dedupe l1); reflexivity.
  - intro Hin. apply (Hnot b Hin Hab).
Qed.

(** The theorem at an act that repeats its first line, in another letter
    case and with another quantity, after a different line. *)
Lemma dedup_keeps_first_witness :
  exists r,
    parse_act repeated_text
    = Ok (mkAct (mkdate 2024 5 12) (u "Склад") (dedupe [] ++ cable_first :: r))
    /\ (forall c, In c r -> In c ([socket] ++ []))
    /\ ~ In cable_again (dedupe [] ++ r)
    /\ (forall c, In c (dedupe [] ++ r) -> ~ same_identity cable_first c).
Proof.
  apply (dedup_keeps_first_occurrence repeated_text
           (u "#АКТ 12.05.2024 | Объект: Склад")
           [ u "Кабель 10 м × 25.5"; u "Розетка 4 шт × 150";
             u "кабель 3 М × 25,50₽" ]
           (u "12.05.2024") (u "Склад") (mkdate 2024 5 12)
           [] cable_first [socket] cable_again []).
  - by_eval.
  - by_eval.
  - by_eval.
  - by_eval.
  - unfold same_identity. conjuncts; by_eval.
  - by_eval.
  - by_eval.
Defined.

(** X4. The list that the set-based filter of [parse_act] returns: its
    items are items of the input in the order of the input; no kept item
    has the hash of an item kept before it and compares equal to it; and
    every item of the input is kept, or the kept items hold one with its
    hash that compares equal to it. *)
Theorem dedupe_keeps_order_and_one_of_each (l : list ActItem) :
  subseq (dedupe l) l
  /\ ForallOrdPairs (fun a b => hash_eqb a b && item_eq a b = false) (dedupe l)
  /\ (forall x, In x l -> In x (dedupe l) \/ in_seen x (dedupe l) = true).
Proof.
  split; [apply dedupe_from_subseq|]. split; [apply dedupe_from_distinct|].
  intros x H. destruct (dedupe_from_covers l [] x H) as [H1 | H1];
    [left; exact H1|].
  right. rewrite app_nil_r, in_seen_rev in H1. exact H1.
Qed.

(** X5. [ActItem.__eq__] is symmetric: the names and the units are
    compared for equality, and the magnitude of the difference of the
    prices is the same in either order. *)
Theorem item_eq_symmetric (a b : ActItem) : item_eq a b = item_eq b a.
Proof.
  unfold item_eq.
  rewrite (str_eqb_sym (lower (name a))), (str_eqb_sym (lower (unit a))).
  rewrite fabs_fsub_sym. reflexivity.
Qed.

(** X6. An item compares equal to itself exactly when its price is
    finite: the difference of an infinite price and itself is not a
    number, and no comparison with it holds. *)
Theorem item_equals_itself_iff_finite (a : ActItem) :
  item_eq a a = is_finite (price a).
Proof.
  unfold item_eq. rewrite !str_eqb_refl. simpl.
  destruct (price a) as [s|s| |s m e] eqn:E.
  - destruct s; reflexivity.
  - destruct s; reflexivity.
  - reflexivity.
  - rewrite (fsub_self (S754_finite s m e)); reflexivity.
Qed.

(** X7. The unit of an item of [_parse_item] is never empty, and it is
    in the normal form of [UNIT_ALIASES]: looked up in the table again it
    is returned as it is, so it is none of the aliases "шт", "штук",
    "метр", "килограмм", "компл" and "комплект". *)
Theorem parsed_unit_normal (line : str) (it : ActItem) :
  _parse_item line = Some it ->
  unit it <> []
  /\ dict_get UNIT_ALIASES (unit it) (unit it) = unit it
  /\ ~ In (unit it) [ u "шт"; u "штук"; u "метр"; u "килограмм"; u "компл";
                     u "комплект" ].
Proof.
  intro H. destruct (parse_item_unit line it H) as [Hne Hfix].
  split; [exact Hne|]. split; [exact Hfix|].
  intro Hin. simpl in Hin.
  repeat (destruct Hin as [E | Hin];
          [rewrite <- E in Hfix; vm_compute in Hfix; discriminate Hfix|]).
  destruct Hin.
Qed.

(** The theorem at a line whose unit is the alias "ШТУК". *)
Lemma parsed_unit_normal_witness :
  u "шт." <> []
  /\ dict_get UNIT_ALIASES (u "шт.") (u "шт.") = u "шт."
  /\ ~ In (u "шт.") [ u "шт"; u "штук"; u "метр"; u "килограмм"; u "компл";
                     u "комплект" ].
Proof.
  apply (parsed_unit_normal (u "Кабель 3 ШТУК × 5")
           (mkItem (u "Кабель") (S754_finite false (3 * 2 ^ 51) (-51))
              (u "шт.") (S754_finite false (5 * 2 ^ 50) (-50)))).
  by_eval.
Defined.

(** X8. A text that holds nothing but white space, the empty text
    included, is rejected with the error 'Пустой акт'. *)
Theorem blank_text_rejected (text : str) :
  forallb isspace text = true -> parse_act text = Raise EmptyAct.
Proof.
  intro Hb. unfold parse_act.
  assert (Hc : clean_text text = text).
  { unfold clean_text. destruct text as [|c t]; [reflexivity|].
    rewrite (blank_has_no_phrase _ Hb). reflexivity. }
  rewrite Hc, (blank_has_no_lines _ Hb). reflexivity.
Qed.

(** The theorem at a text of a blank, a tab, two line breaks and a
    no-break space. *)
Lemma blank_text_rejected_witness :
  parse_act [32; 9; 10; 10; 160]%N = Raise EmptyAct.
Proof.
  apply (blank_text_rejected [32; 9; 10; 10; 160]%N). by_eval.
Defined.

(** X9. The object name of a record that [parse_act] returns is never
    empty: the object group of the header takes the rest of the first
    line, which ends with a character that is no white space. *)
Theorem object_name_not_empty (text : str) (a : ActData) :
  parse_act text = Ok a -> object_name a <> [].
Proof.
  unfold parse_act.
  destruct (nonblank_lines (clean_text text)) as [|first rest] eqn:El;
    [discriminate|].
  destruct (parse_header first) as [[ds obj]|] eqn:Hh; [|discriminate].
  destruct (strptime_dmY ds) as [d|]; [|discriminate].
  destruct (dedupe (collect_items rest)) as [|i its]; [discriminate|].
  intro H. injection H as <-. simpl.
  destruct (nonblank_lines_in (clean_text text) first) as (Hne & Hc & Hnl).
  { rewrite El. left. reflexivity. }
  apply (parse_header_object first ds obj); auto.
Qed.

(** The theorem at the scenario of the specification. *)
Lemma object_name_not_empty_witness : object_name scenario_act <> [].
Proof.
  apply (object_name_not_empty scenario_text scenario_act). by_eval.
Defined.
